(** * types-publisher: the npm metadata client and the registry-publish driver

    A shallow embedding of [lib/npm-client.ts] (the cached and uncached
    metadata clients, the publish client, the two conversions between the
    wire document and the cached document) and of [bin/publish-registry.js]
    (the driver that republishes the [types-registry] package).

    Asynchronous functions are sequential: every [await] is a bind of the
    monad [Async], which threads the world (file system, the client's
    cache, the logger, the trace of calls made to collaborators) and
    propagates a thrown error. *)

From Stdlib Require Import ZArith List Ascii.
From stdpp Require Import base option gmap strings list fin_maps pretty.

Local Open Scope Z_scope.

(** ** JSON values

    Objects are finite maps from property names to values. Numbers that
    occur in this program are integers. *)

#[local] Unset Elimination Schemes.
Inductive Json : Type :=
| JNull
| JBool (b : bool)
| JNumber (n : Z)
| JString (s : string)
| JArray (items : list Json)
| JObject (props : gmap string Json).
#[local] Set Elimination Schemes.

(** ** Data model of [npm-client.ts] *)

(** [interface NpmInfoVersion]. The interface is structural: an object
    received from the registry has the two declared properties and any
    number of others, kept here in [versionOther]. [deprecated?: string]
    is [None] both when the property is missing and when it holds
    [undefined]; the two are not told apart by a property read nor by the
    JSON written to the cache file. *)
Record NpmInfoVersion : Type := {
  typesPublisherContentHash : string;
  deprecated : option string;
  versionOther : gmap string Json
}.

(** The [time] property of the wire document. *)
Record NpmInfoRawTime : Type := {
  modified : string;
  timeOther : gmap string Json
}.

(** [interface NpmInfoRaw], the wire shape, with the properties the
    interface does not declare in [rawOther]. *)
Record NpmInfoRaw : Type := {
  rawVersion : string;
  rawDistTags : gmap string string;
  rawVersions : gmap string NpmInfoVersion;
  rawTime : NpmInfoRawTime;
  rawOther : gmap string Json
}.

(** [interface NpmInfo], the processed document that is cached. *)
Record NpmInfo : Type := {
  version : string;
  distTags : gmap string string;
  versions : gmap string NpmInfoVersion;
  timeModified : string
}.

(** Modelled from the spec: [recordToMap], [mapToRecord], [identity] and
    [some] of [util/util] are not among the sources. The spec has the
    conversions keep the key/value pairs, applying the callback to each
    value, and has the hit test ask for at least one version with the
    hash. A record and a [Map] are both finite maps here, so both
    directions map the callback over the values; a call without callback
    passes [identity]. *)
Definition recordToMap {T U : Type} (record : gmap string T) (cb : T -> U)
  : gmap string U := cb <$> record.

Definition mapToRecord {T U : Type} (map : gmap string T) (cb : T -> U)
  : gmap string U := cb <$> map.

Definition identity {T : Type} (t : T) : T := t.

Definition values {T : Type} (map : gmap string T) : list T :=
  (map_to_list map).*2.

Definition some {T : Type} (iter : list T) (cb : T -> bool) : bool :=
  existsb cb iter.

(** The callback of [npmInfoFromJson]:
    [({ typesPublisherContentHash, deprecated }) =>
       ({ typesPublisherContentHash, deprecated })]. *)
Definition pickVersion (v : NpmInfoVersion) : NpmInfoVersion :=
  {| typesPublisherContentHash := typesPublisherContentHash v;
     deprecated := deprecated v;
     versionOther := ∅ |}.

Definition npmInfoFromJson (n : NpmInfoRaw) : NpmInfo :=
  {| version := rawVersion n;
     distTags := recordToMap (rawDistTags n) identity;
     versions := recordToMap (rawVersions n) pickVersion;
     timeModified := modified (rawTime n) |}.

Definition jsonFromNpmInfo (n : NpmInfo) : NpmInfoRaw :=
  {| rawVersion := version n;
     rawDistTags := mapToRecord (distTags n) identity;
     rawVersions := mapToRecord (versions n) identity;
     rawTime := {| modified := timeModified n; timeOther := ∅ |};
     rawOther := ∅ |}.

(** The wording of the round-trip law: a wire document restricted to the
    four tracked fields. *)
Definition restrictVersion (v : NpmInfoVersion) : NpmInfoVersion :=
  {| typesPublisherContentHash := typesPublisherContentHash v;
     deprecated := deprecated v;
     versionOther := ∅ |}.

Definition restrictToTracked (r : NpmInfoRaw) : NpmInfoRaw :=
  {| rawVersion := rawVersion r;
     rawDistTags := rawDistTags r;
     rawVersions := restrictVersion <$> rawVersions r;
     rawTime := {| modified := modified (rawTime r); timeOther := ∅ |};
     rawOther := ∅ |}.

(** ** Errors and asynchronous computations *)

(** A JavaScript [Error]: what the program reads of it is its message. *)
Record Error : Type := { message : string }.

Inductive Result (A : Type) : Type :=
| Ok (value : A)
| Throw (error : Error).
Arguments Ok {A} value.
Arguments Throw {A} error.

(** [fetchJson]'s options object. *)
Record FetchOptions : Type := {
  hostname : string;
  path : string;
  retries : bool
}.

(** What the registry read endpoint answers: [{ error: string }] or a
    document. The program tells them apart with ["error" in info], which
    also holds of a document that has an extra property [error]. *)
Inductive Payload : Type :=
| ErrorPayload (error : string)
| InfoPayload (info : NpmInfoRaw).

(** What a file holds. [writeJson] stores a value; the cache file holds a
    record of wire documents. *)
Inductive FileContent : Type :=
| Text (text : string)
| JsonFile (value : Json)
| CacheJson (record : gmap string NpmInfoRaw).

Record Credentials : Type := { token : string }.

(** The archive stream [createTgz] returns for a directory. *)
Record Tgz : Type := { tgzOf : string }.

(** [RegClient.PublishParams]. *)
Record PublishParams : Type := {
  access : string;
  publishAuth : Credentials;
  metadata : gmap string Json;
  body : Tgz
}.

Record TagParams : Type := {
  tagVersion : string;
  tagName : string;
  tagAuth : Credentials
}.

Record DeprecateParams : Type := {
  deprecateMessage : string;
  deprecateVersion : string;
  deprecateAuth : Credentials
}.

(** The calls the program makes to its collaborators, in the order made. *)
Inductive Event : Type :=
| EFetchJson (options : FetchOptions)
| ESleep (milliseconds : Z)
| EPathExists (file : string)
| EReadJson (file : string)
| EEnsureFile (file : string)
| EWriteJson (file : string) (content : FileContent)
| EReadFile (file : string)
| ECreateTgz (dir : string)
| EGetSecret
| ERegPublish (uri : string) (params : PublishParams)
| ERegTag (uri : string) (params : TagParams)
| ERegDeprecate (uri : string) (params : DeprecateParams)
| EReadAdditions
| EReadTypings
| EFetchVersionInfo (name : string) (isPrerelease : bool)
| EClearOutputPath (dir : string)
| EWriteLog (file : string) (lines : list string).

(** A call that reaches the npm registry or the download-count API. *)
Definition isNetworkCall (e : Event) : bool :=
  match e with
  | EFetchJson _ | ERegPublish _ _ | ERegTag _ _ | ERegDeprecate _ _
  | EFetchVersionInfo _ _ => true
  | _ => false
  end.

Definition isFetch (e : Event) : bool :=
  match e with EFetchJson _ => true | _ => false end.

(** A write of the cache file [file]. *)
Definition isWriteOf (file : string) (e : Event) : bool :=
  match e with
  | EWriteJson f _ => bool_decide (f = file)
  | _ => false
  end.

Definition count (p : Event -> bool) (events : list Event) : nat :=
  length (filter (fun e => p e = true) events).

(** [readTypings] yields the parsed packages; the driver reads their
    names. *)
Record TypingsData : Type := { typingsPackageName : string }.

Record Semver : Type := { major : Z; minor : Z; patch : Z }.

(** The mutable state: the file system, the private [cache] map of the
    [CachedNpmInfoClient] of the running session, the lines of the
    driver's logger, and the trace. *)
Record World : Type := {
  files : gmap string FileContent;
  cache : gmap string NpmInfo;
  logged : list string;
  trace : list Event
}.

(** Modelled from the spec: the constants of [lib/settings], and what the
    collaborators that are not among the sources answer ([util/io]'s
    [Fetcher], the registry client, [lib/secrets], [lib/versions],
    [lib/common], [lib/package-generator]), together with the Node
    built-ins [url.resolve], [path.join] and [JSON.stringify]. All of them
    are parameters: a statement about the program holds for every [Env]. A
    network answer may depend on the calls made before it. *)
Record Env : Type := {
  (* lib/settings *)
  npmRegistry : string;
  npmRegistryHostName : string;
  npmApi : string;
  settingsOutputPath : string;
  dirname : string;
  (* Node *)
  urlResolve : string -> string -> string;
  pathJoin : list string -> string;
  jsonStringify : Json -> string;
  fileText : FileContent -> string;
  (* the registry *)
  fetchJsonAnswer : list Event -> FetchOptions -> Result Payload;
  downloadsAnswer : list Event -> FetchOptions -> Result (option Z);
  publishSettles : list Event -> string -> PublishParams -> option Error;
  tagCallsBack : list Event -> string -> TagParams -> option Error;
  deprecateCallsBack : list Event -> string -> DeprecateParams -> option Error;
  (* lib/secrets *)
  npmToken : Result string;
  (* lib/versions, lib/common, lib/package-generator *)
  additions : list string;
  typingsData : list TypingsData;
  versionInfoAnswer : list Event -> string -> bool -> Result Semver;
  clearedFiles : string -> gmap string FileContent -> gmap string FileContent;
  clearLogs : string -> list string
}.

Definition Async (A : Type) : Type := World -> Result A * World.

Definition ret {A : Type} (a : A) : Async A := fun w => (Ok a, w).

Definition throw {A : Type} (e : Error) : Async A := fun w => (Throw e, w).

Definition bind {A B : Type} (m : Async A) (k : A -> Async B) : Async B :=
  fun w =>
    match m w with
    | (Ok a, w') => k a w'
    | (Throw e, w') => (Throw e, w')
    end.

Notation "'let*' x ':=' m 'in' k" := (bind m (fun x => k))
  (at level 10, x name, m at level 100, k at level 200).

Definition emit (e : Event) (w : World) : World :=
  {| files := files w; cache := cache w; logged := logged w;
     trace := trace w ++ [e] |}.

Definition setFiles (fs : gmap string FileContent) (w : World) : World :=
  {| files := fs; cache := cache w; logged := logged w; trace := trace w |}.

Definition setCache (c : gmap string NpmInfo) (w : World) : World :=
  {| files := files w; cache := c; logged := logged w; trace := trace w |}.

Definition setLogged (l : list string) (w : World) : World :=
  {| files := files w; cache := cache w; logged := l; trace := trace w |}.

(** The events [w'] has after those of [w]. *)
Definition since (w w' : World) : list Event :=
  drop (length (trace w)) (trace w').

(** ** Collaborators: [fs-extra], [util/io], [util/tgz], [lib/secrets] *)

(** [pathExists] of [fs-extra]. *)
Definition pathExists (file : string) : Async bool :=
  fun w => (Ok (bool_decide (is_Some (files w !! file))), emit (EPathExists file) w).

(** Modelled from the spec: [readJson] of [util/io], used on the cache
    file and cast to [Record<string, NpmInfoRaw>]. A file that holds
    anything else makes the cast wrong and the session fails before the
    unit of work starts. *)
Definition readJson (file : string) : Async (gmap string NpmInfoRaw) :=
  fun w =>
    match files w !! file with
    | Some (CacheJson record) => (Ok record, emit (EReadJson file) w)
    | Some _ => (Throw {| message := "Unexpected content of " +:+ file |},
                 emit (EReadJson file) w)
    | None => (Throw {| message := "ENOENT: " +:+ file |}, emit (EReadJson file) w)
    end.

(** [ensureFile] of [fs-extra] creates the file, and its directories, when
    missing. *)
Definition ensureFile (file : string) : Async unit :=
  fun w =>
    (Ok tt,
     emit (EEnsureFile file)
       (match files w !! file with
        | Some _ => w
        | None => setFiles (<[file := Text ""]> (files w)) w
        end)).

(** Modelled from the spec: [writeJson] of [util/io] replaces the content
    of the file. *)
Definition writeJson (file : string) (content : FileContent) : Async unit :=
  fun w =>
    (Ok tt, emit (EWriteJson file content) (setFiles (<[file := content]> (files w)) w)).

(** Modelled from the spec: [readFile] of [util/io] gives the text of the
    file, and fails when the file does not exist. *)
Definition readFile (env : Env) (file : string) : Async string :=
  fun w =>
    match files w !! file with
    | Some content => (Ok (fileText env content), emit (EReadFile file) w)
    | None => (Throw {| message := "ENOENT: " +:+ file |}, emit (EReadFile file) w)
    end.

(** Modelled from the spec: [sleep] of [util/io], the pause after a
    fetch. [sleep(0.01)] is in seconds in the source, in milliseconds in
    the trace. *)
Definition sleep (milliseconds : Z) : Async unit :=
  fun w => (Ok tt, emit (ESleep milliseconds) w).

(** Modelled from the spec: [createTgz(dir, onError)] of [util/tgz] starts
    the archive stream; an error of the stream reaches [onError] later,
    not the caller. *)
Definition createTgz (dir : string) : Async Tgz :=
  fun w => (Ok {| tgzOf := dir |}, emit (ECreateTgz dir) w).

(** Modelled from the spec: [getSecret(Secret.NPM_TOKEN)] of
    [lib/secrets]. *)
Definition getSecret (env : Env) : Async string :=
  fun w => (npmToken env, emit EGetSecret w).

(** Modelled from the spec: [joinPaths] of [util/util] joins path
    segments as [path.join] does. *)
Definition joinPaths (env : Env) (paths : list string) : string :=
  pathJoin env paths.

(** ** [npm-client.ts] *)

Definition packageUrl (env : Env) (packageName : string) : string :=
  urlResolve env (npmRegistry env) packageName.

Definition cacheDir (env : Env) : string :=
  joinPaths env [dirname env; ".."; ".."; "cache"].

Definition cacheFile (env : Env) : string :=
  joinPaths env [cacheDir env; "npmInfo.json"].

(** Modelled from the spec: [Fetcher.fetchJson] of [util/io], one GET with
    JSON decoding; its retries are its own. *)
Definition fetchJson (env : Env) (options : FetchOptions) : Async Payload :=
  fun w => (fetchJsonAnswer env (trace w) options, emit (EFetchJson options) w).

Definition fetchDownloadsJson (env : Env) (options : FetchOptions) : Async (option Z) :=
  fun w => (downloadsAnswer env (trace w) options, emit (EFetchJson options) w).

(** [info.error === "Not found"]: the value is that very string. *)
Definition isNotFound (error : Json) : bool :=
  match error with
  | JString text => bool_decide (text = "Not found")
  | _ => false
  end.

(** The text a template literal gives a decoded JSON value: a string is
    itself, [null], booleans and numbers are printed, an array is its
    elements joined with commas ([null] as the empty text), an object is
    [[object Object]]. *)
Fixpoint templateText (value : Json) : string :=
  match value with
  | JNull => "null"
  | JBool b => if b then "true" else "false"
  | JNumber n => pretty n
  | JString text => text
  | JArray items =>
      String.concat ","
        (List.map (fun item => match item with
                               | JNull => ""
                               | _ => templateText item
                               end) items)
  | JObject _ => "[object Object]"
  end.

Module UncachedNpmInfoClient.

(** The block of [if ("error" in info)], with the value of [info.error]. *)
Definition onError (escapedPackageName : string) (error : Json)
  : Async (option NpmInfoRaw) :=
  if isNotFound error then ret None
  else throw {| message := "Error getting version at " +:+ escapedPackageName
                             +:+ ": " +:+ templateText error |}.

(** ["error" in info] holds of [{ error: string }], and of a document that
    carries a property of that name beside the declared ones. *)
Definition fetchRawNpmInfo (env : Env) (escapedPackageName : string)
  : Async (option NpmInfoRaw) :=
  let* info := fetchJson env {| hostname := npmRegistryHostName env;
                                path := escapedPackageName;
                                retries := true |} in
  match info with
  | ErrorPayload error => onError escapedPackageName (JString error)
  | InfoPayload raw =>
      match rawOther raw !! "error" with
      | Some error => onError escapedPackageName error
      | None => ret (Some raw)
      end
  end.

Definition fetchNpmInfo (env : Env) (escapedPackageName : string)
  : Async (option NpmInfo) :=
  let* raw := fetchRawNpmInfo env escapedPackageName in
  let* _ := sleep 10 in
  ret (match raw with None => None | Some raw => Some (npmInfoFromJson raw) end).

(** [json.downloads || 0]: a missing count, and a count of 0, give 0. *)
Definition getDownloads (env : Env) (packageName : string) : Async Z :=
  let* json := fetchDownloadsJson env
                 {| hostname := npmApi env;
                    path := "/downloads/point/last-month/" +:+ packageName;
                    retries := true |} in
  ret (match json with Some downloads => downloads | None => 0 end).

End UncachedNpmInfoClient.

Module CachedNpmInfoClient.

Definition getCache : Async (gmap string NpmInfo) := fun w => (Ok (cache w), w).

Definition cacheSet (name : string) (info : NpmInfo) : Async unit :=
  fun w => (Ok tt, setCache (<[name := info]> (cache w)) w).

(** [new this(uncachedClient, cache)]. *)
Definition new (loaded : gmap string NpmInfo) : Async unit :=
  fun w => (Ok tt, setCache loaded w).

(** The condition of line 59. *)
Definition isHit (cached : option NpmInfo) (contentHash : option string) : bool :=
  match cached, contentHash with
  | Some cached, Some contentHash =>
      some (values (versions cached))
           (fun v => bool_decide (typesPublisherContentHash v = contentHash))
  | _, _ => false
  end.

Definition getNpmInfo (env : Env) (escapedPackageName : string)
    (contentHash : option string) : Async (option NpmInfo) :=
  let* cache := getCache in
  let cached := cache !! escapedPackageName in
  if isHit cached contentHash then ret cached
  else
    let* info := UncachedNpmInfoClient.fetchNpmInfo env escapedPackageName in
    let* _ := match info, contentHash with
              | Some info, Some _ => cacheSet escapedPackageName info
              | _, _ => ret tt
              end in
    ret info.

Definition writeCache (env : Env) : Async unit :=
  let* _ := ensureFile (cacheFile env) in
  let* cache := getCache in
  writeJson (cacheFile env) (CacheJson (mapToRecord cache jsonFromNpmInfo)).

(** The second argument of [new this(...)] in [with]:
    [await pathExists(cacheFile)
       ? recordToMap(await readJson(cacheFile), npmInfoFromJson)
       : new Map()]. *)
Definition loadCache (env : Env) : Async (gmap string NpmInfo) :=
  let* present := pathExists (cacheFile env) in
  if present : bool
  then let* json := readJson (cacheFile env) in
       ret (recordToMap json npmInfoFromJson)
  else ret ∅.

(** [static async with(uncachedClient, cb)]. The unit of work [cb] runs
    against the world that holds the new client's cache. *)
Definition with_ {T : Type} (env : Env) (cb : Async T) : Async T :=
  let* loaded := loadCache env in
  let* _ := new loaded in
  let* res := cb in
  let* _ := writeCache env in
  ret res.

End CachedNpmInfoClient.

(** [String.prototype.replace] with a string pattern: the first
    occurrence only. The replacements of this program hold no [$], so they
    are inserted as written. *)
Fixpoint dropString (n : nat) (s : string) : string :=
  match n, s with
  | O, _ => s
  | S n, String _ rest => dropString n rest
  | S _, EmptyString => EmptyString
  end.

Fixpoint String_replace (s pattern replacement : string) {struct s} : string :=
  if String.prefix pattern s
  then replacement +:+ dropString (String.length pattern) s
  else match s with
       | EmptyString => EmptyString
       | String c rest => String c (String_replace rest pattern replacement)
       end.

(** The object a [NpmPublishClient] is: the registry client, which holds
    nothing the program reads, and the credentials. *)
Record PublishClient : Type := { auth : Credentials }.

(** [RegClient.publish]: the promise of [publish] settles with the first
    of the registry's callback and the archive stream's error. *)
Definition regPublish (env : Env) (uri : string) (params : PublishParams) : Async unit :=
  fun w =>
    (match publishSettles env (trace w) uri params with
     | Some err => Throw err
     | None => Ok tt
     end,
     emit (ERegPublish uri params) w).

Definition regTag (env : Env) (uri : string) (params : TagParams)
  : Async (option Error) :=
  fun w => (Ok (tagCallsBack env (trace w) uri params), emit (ERegTag uri params) w).

Definition regDeprecate (env : Env) (uri : string) (params : DeprecateParams)
  : Async (option Error) :=
  fun w =>
    (Ok (deprecateCallsBack env (trace w) uri params), emit (ERegDeprecate uri params) w).

(** [callsBack] makes the call and yields the error handed to [cb]. *)
Definition promisifyVoid (callsBack : Async (option Error)) : Async unit :=
  let* error := callsBack in
  match error with
  | Some error => throw error
  | None => ret tt
  end.

Module NpmPublishClient.

Definition create (env : Env) : Async PublishClient :=
  let* token := getSecret env in
  ret {| auth := {| token := token |} |}.

Definition publish (env : Env) (this : PublishClient) (publishedDirectory : string)
    (packageJson : gmap string Json) (dry : bool) : Async unit :=
  let* readme := readFile env (joinPaths env [publishedDirectory; "README.md"]) in
  let* body := createTgz publishedDirectory in
  (* { readme, ...packageJson }: a readme of packageJson wins *)
  let metadata := packageJson ∪ {[ "readme" := JString readme ]} in
  let params := {| access := "public";
                   publishAuth := auth this;
                   metadata := metadata;
                   body := body |} in
  if dry then ret tt
  else regPublish env (npmRegistry env) params.

Definition tag (env : Env) (this : PublishClient) (packageName version tag : string)
  : Async unit :=
  let params := {| tagVersion := version; tagName := tag; tagAuth := auth this |} in
  promisifyVoid (regTag env (packageUrl env packageName) params).

Definition deprecate (env : Env) (this : PublishClient)
    (packageName version message : string) : Async unit :=
  let url := packageUrl env (String_replace packageName "/" "%2f") in
  let params := {| deprecateMessage := message;
                   deprecateVersion := version;
                   deprecateAuth := auth this |} in
  promisifyVoid (regDeprecate env url params).

End NpmPublishClient.

(** ** [publish-registry.js] *)

Module PublishRegistry.

Definition packageName : string := "types-registry".

Definition outputPath (env : Env) : string :=
  pathJoin env [settingsOutputPath env; packageName].

Definition readme : string :=
  "This package contains a listing of all packages published to the @types scope on NPM.
Generated by [types-publisher](https://github.com/Microsoft/types-publisher).".

(** Modelled from the spec: [logger()], [log(message)], [logResult()] and
    [writeLog] of [util/logging]. *)
Definition logger : Async unit := fun w => (Ok tt, setLogged [] w).

Definition log (line : string) : Async unit :=
  fun w => (Ok tt, setLogged (logged w ++ [line]) w).

Definition logResult : Async (list string) := fun w => (Ok (logged w), w).

Definition writeLog (file : string) (lines : list string) : Async unit :=
  fun w => (Ok tt, emit (EWriteLog file lines) w).

(** Modelled from the spec: [readAdditions] of [lib/versions], the
    externally supplied list of added packages, and [readTypings] of
    [lib/common]. *)
Definition readAdditions (env : Env) : Async (list string) :=
  fun w => (Ok (additions env), emit EReadAdditions w).

Definition readTypings (env : Env) : Async (list TypingsData) :=
  fun w => (Ok (typingsData env), emit EReadTypings w).

(** Modelled from the spec: [fetchVersionInfoFromNpm(name, isPrerelease)]
    of [lib/versions], read for its [version]. *)
Definition fetchVersionInfoFromNpm (env : Env) (name : string) (isPrerelease : bool)
  : Async Semver :=
  fun w =>
    (versionInfoAnswer env (trace w) name isPrerelease,
     emit (EFetchVersionInfo name isPrerelease) w).

(** Modelled from the spec: [clearOutputPath(outputPath, log)] of
    [lib/package-generator] empties the directory and may log. *)
Definition clearOutputPath (env : Env) (dir : string) : Async unit :=
  fun w =>
    (Ok tt,
     emit (EClearOutputPath dir)
       (setLogged (logged w ++ clearLogs env dir)
          (setFiles (clearedFiles env dir (files w)) w))).

Definition generatePackageJson (patch : Z) : gmap string Json :=
  {[ "name" := JString packageName;
     "version" := JString ("0.1." +:+ pretty patch);
     "description" := JString "A registry of TypeScript declaration file packages published within the @types scope.";
     "repository" := JObject {[ "type" := JString "git";
                                "url" := JString "https://github.com/Microsoft/types-publisher.git" ]};
     "keywords" := JArray [JString "TypeScript"; JString "declaration"; JString "files";
                           JString "types"; JString "packages"];
     "author" := JString "Microsoft Corp.";
     "license" := JString "Apache-2.0" ]}.

(** The loop of [generateRegistry]: [entries[typingsPackageName] = 1]. *)
Definition registryEntries (typings : list TypingsData) : gmap string Json :=
  foldl (fun entries t => <[typingsPackageName t := JNumber 1]> entries) ∅ typings.

Definition generateRegistry (typings : list TypingsData) : Json :=
  JObject {[ "entries" := JObject (registryEntries typings) ]}.

Definition writeOutputFile (env : Env) (filename : string) (content : Json) : Async unit :=
  writeJson (pathJoin env [outputPath env; filename]) (JsonFile content).

Definition generate (env : Env) (typings : list TypingsData)
    (packageJson : gmap string Json) : Async unit :=
  let* _ := clearOutputPath env (outputPath env) in
  let* _ := writeOutputFile env "package.json" (JObject packageJson) in
  let* _ := writeOutputFile env "index.json" (generateRegistry typings) in
  writeOutputFile env "README.md" (JString readme).

Definition publish (env : Env) (packageJson : gmap string Json) (dry : bool) : Async unit :=
  let* client := NpmPublishClient.create env in
  NpmPublishClient.publish env client (outputPath env) packageJson dry.

Definition fetchLastPatchNumber (env : Env) : Async Z :=
  let* info := fetchVersionInfoFromNpm env packageName false in
  ret (patch info).

Definition generateAndPublishRegistry (env : Env) (dry : bool) : Async unit :=
  let* typings := readTypings env in
  let* last := fetchLastPatchNumber env in
  let packageJson := generatePackageJson (last + 1) in
  let* _ := generate env typings packageJson in
  publish env packageJson dry.

Definition main (env : Env) (dry : bool) : Async unit :=
  let* _ := logger in
  let* _ := log "=== Publishing types-registry ===" in
  let* added := readAdditions env in
  let* _ := (if negb (Nat.eqb (length added) 0)
             then
               let* _ := log ("New packages have been added: "
                              +:+ jsonStringify env (JArray (JString <$> added))
                              +:+ ", so publishing a new registry") in
               generateAndPublishRegistry env dry
             else log "No new packages published, so no need to publish new registry.") in
  let* lines := logResult in
  writeLog "publish-registry.md" lines.

End PublishRegistry.

(** ** A concrete registry, used to run the program *)

Module Demo.

Definition fooRaw : NpmInfoRaw :=
  {| rawVersion := "1.0.0";
     rawDistTags := {[ "latest" := "1.0.0" ]};
     rawVersions :=
       {[ "1.0.0" := {| typesPublisherContentHash := "H";
                        deprecated := None;
                        versionOther := {[ "dist" := JObject {[ "shasum" := JString "abc" ]} ]} |};
          "0.9.0" := {| typesPublisherContentHash := "G";
                        deprecated := Some "use 1.0.0";
                        versionOther := ∅ |} ]};
     rawTime := {| modified := "2017-01-01T00:00:00.000Z";
                   timeOther := {[ "created" := JString "2016-01-01T00:00:00.000Z" ]} |};
     rawOther := {[ "name" := JString "foo"; "maintainers" := JArray [] ]} |}.

Definition fooInfo : NpmInfo := npmInfoFromJson fooRaw.

(** The registry knows [foo], fails on [broken], and has nothing else. *)
Definition registry (options : FetchOptions) : Result Payload :=
  if bool_decide (path options = "foo") then Ok (InfoPayload fooRaw)
  else if bool_decide (path options = "broken") then Ok (ErrorPayload "Internal error")
  else Ok (ErrorPayload "Not found").

Fixpoint joinWith (sep : string) (parts : list string) : string :=
  match parts with
  | [] => ""
  | [p] => p
  | p :: rest => p +:+ sep +:+ joinWith sep rest
  end.

Definition envOf (added : list string) : Env :=
  {| npmRegistry := "https://registry.npmjs.org/";
     npmRegistryHostName := "registry.npmjs.org";
     npmApi := "api.npmjs.org";
     settingsOutputPath := "output";
     dirname := "/types-publisher/bin/lib";
     urlResolve := fun base relative => base +:+ relative;
     pathJoin := joinWith "/";
     jsonStringify := fun _ => "[...]";
     fileText := fun content => match content with Text text => text | _ => "{...}" end;
     fetchJsonAnswer := fun _ options => registry options;
     downloadsAnswer := fun _ _ => Ok None;
     publishSettles := fun _ _ _ => None;
     tagCallsBack := fun _ _ _ => None;
     deprecateCallsBack := fun _ _ _ => None;
     npmToken := Ok "secret";
     additions := added;
     typingsData := [ {| typingsPackageName := "foo" |}; {| typingsPackageName := "bar" |} ];
     versionInfoAnswer := fun _ _ _ => Ok {| major := 0; minor := 1; patch := 41 |};
     clearedFiles := fun _ _ => ∅;
     clearLogs := fun _ => [] |}.

(** One package, [bar], was added since the last publish. *)
Definition env : Env := envOf ["bar"].

(** Nothing was added since the last publish. *)
Definition quietEnv : Env := envOf [].

(** Nothing on disk, nothing done yet. *)
Definition world : World :=
  {| files := ∅; cache := ∅; logged := []; trace := [] |}.

(** A batch over two packages: the first is fetched and cached, the second
    fails upstream. *)
Definition failingBatch : Async (option NpmInfo) :=
  let* _ := CachedNpmInfoClient.getNpmInfo env "foo" (Some "H") in
  CachedNpmInfoClient.getNpmInfo env "broken" (Some "H").

Definition okBatch : Async (option NpmInfo) :=
  let* _ := CachedNpmInfoClient.getNpmInfo env "foo" (Some "H") in
  CachedNpmInfoClient.getNpmInfo env "nothing" (Some "H").

(** The cache already holds [foo]. *)
Definition cachedWorld : World :=
  {| files := ∅; cache := {[ "foo" := fooInfo ]}; logged := []; trace := [] |}.

(** The cache holds an entry for a package the registry no longer has. *)
Definition staleWorld : World :=
  {| files := ∅; cache := {[ "gone" := fooInfo ]}; logged := []; trace := [] |}.

(** A published directory with its readme on disk. *)
Definition readmeWorld : World :=
  {| files := {[ "dir/README.md" := Text "# readme" ]};
     cache := ∅; logged := []; trace := [] |}.

Definition client : PublishClient := {| auth := {| token := "secret" |} |}.

End Demo.

(** ** Collaborators that fail, and a cache file left by an earlier run *)

Module Faults.

(** As [Demo.env], but the registry cannot be reached for the last
    version. *)
Definition offlineEnv : Env :=
  {| npmRegistry := npmRegistry Demo.env;
     npmRegistryHostName := npmRegistryHostName Demo.env;
     npmApi := npmApi Demo.env;
     settingsOutputPath := settingsOutputPath Demo.env;
     dirname := dirname Demo.env;
     urlResolve := urlResolve Demo.env;
     pathJoin := pathJoin Demo.env;
     jsonStringify := jsonStringify Demo.env;
     fileText := fileText Demo.env;
     fetchJsonAnswer := fetchJsonAnswer Demo.env;
     downloadsAnswer := downloadsAnswer Demo.env;
     publishSettles := publishSettles Demo.env;
     tagCallsBack := tagCallsBack Demo.env;
     deprecateCallsBack := deprecateCallsBack Demo.env;
     npmToken := npmToken Demo.env;
     additions := additions Demo.env;
     typingsData := typingsData Demo.env;
     versionInfoAnswer := fun _ _ _ => Throw {| message := "ETIMEDOUT" |};
     clearedFiles := clearedFiles Demo.env;
     clearLogs := clearLogs Demo.env |}.

(** As [Demo.env], but the secret store has no token. *)
Definition tokenlessEnv : Env :=
  {| npmRegistry := npmRegistry Demo.env;
     npmRegistryHostName := npmRegistryHostName Demo.env;
     npmApi := npmApi Demo.env;
     settingsOutputPath := settingsOutputPath Demo.env;
     dirname := dirname Demo.env;
     urlResolve := urlResolve Demo.env;
     pathJoin := pathJoin Demo.env;
     jsonStringify := jsonStringify Demo.env;
     fileText := fileText Demo.env;
     fetchJsonAnswer := fetchJsonAnswer Demo.env;
     downloadsAnswer := downloadsAnswer Demo.env;
     publishSettles := publishSettles Demo.env;
     tagCallsBack := tagCallsBack Demo.env;
     deprecateCallsBack := deprecateCallsBack Demo.env;
     npmToken := Throw {| message := "Missing secret" |};
     additions := additions Demo.env;
     typingsData := typingsData Demo.env;
     versionInfoAnswer := versionInfoAnswer Demo.env;
     clearedFiles := clearedFiles Demo.env;
     clearLogs := clearLogs Demo.env |}.

(** The document of [foo] with one more property, named [error]. *)
Definition flaggedRaw : NpmInfoRaw :=
  {| rawVersion := rawVersion Demo.fooRaw;
     rawDistTags := rawDistTags Demo.fooRaw;
     rawVersions := rawVersions Demo.fooRaw;
     rawTime := rawTime Demo.fooRaw;
     rawOther := <["error" := JString "Deprecated endpoint"]> (rawOther Demo.fooRaw) |}.

(** As [Demo.env], but the registry answers every request with
    [flaggedRaw]. *)
Definition flaggedEnv : Env :=
  {| npmRegistry := npmRegistry Demo.env;
     npmRegistryHostName := npmRegistryHostName Demo.env;
     npmApi := npmApi Demo.env;
     settingsOutputPath := settingsOutputPath Demo.env;
     dirname := dirname Demo.env;
     urlResolve := urlResolve Demo.env;
     pathJoin := pathJoin Demo.env;
     jsonStringify := jsonStringify Demo.env;
     fileText := fileText Demo.env;
     fetchJsonAnswer := fun _ _ => Ok (InfoPayload flaggedRaw);
     downloadsAnswer := downloadsAnswer Demo.env;
     publishSettles := publishSettles Demo.env;
     tagCallsBack := tagCallsBack Demo.env;
     deprecateCallsBack := deprecateCallsBack Demo.env;
     npmToken := npmToken Demo.env;
     additions := additions Demo.env;
     typingsData := typingsData Demo.env;
     versionInfoAnswer := versionInfoAnswer Demo.env;
     clearedFiles := clearedFiles Demo.env;
     clearLogs := clearLogs Demo.env |}.

(** The cache file holds the wire document of [foo], extra properties
    included. *)
Definition savedWorld : World :=
  {| files := {[ cacheFile Demo.env := CacheJson {[ "foo" := Demo.fooRaw ]} ]};
     cache := ∅; logged := []; trace := [] |}.

End Faults.

(** ** Vocabulary of the statements *)

(** The request [fetchRawNpmInfo] sends for a package. *)
Definition infoRequest (env : Env) (escapedPackageName : string) : FetchOptions :=
  {| hostname := npmRegistryHostName env; path := escapedPackageName; retries := true |}.

(** The [error] property of an answer, when it has one: what
    ["error" in info] tests and [info.error] reads. An answer that has it
    is an error payload. *)
Definition errorOf (info : Payload) : option Json :=
  match info with
  | ErrorPayload error => Some (JString error)
  | InfoPayload raw => rawOther raw !! "error"
  end.

(** The cache holds an entry for [name] with a version of hash [hash]. *)
Definition cachedWithHash (cache : gmap string NpmInfo) (name hash : string) : Prop :=
  ∃ info ver v, cache !! name = Some info ∧ versions info !! ver = Some v
                ∧ typesPublisherContentHash v = hash.

(** [sub] occurs in [s]. *)
Definition occursIn (sub s : string) : Prop :=
  ∃ before after, s = before +:+ sub +:+ after.

Fixpoint hasSlash (s : string) : bool :=
  match s with
  | EmptyString => false
  | String c rest => bool_decide (c = "/"%char) || hasSlash rest
  end.

(** The events of [generate]: the directory is cleared, then the manifest,
    the index and the readme are written. *)
Definition registryFiles (env : Env) (packageJson : gmap string Json) : list Event :=
  let out := PublishRegistry.outputPath env in
  [EClearOutputPath out;
   EWriteJson (pathJoin env [out; "package.json"]) (JsonFile (JObject packageJson));
   EWriteJson (pathJoin env [out; "index.json"])
     (JsonFile (PublishRegistry.generateRegistry (typingsData env)));
   EWriteJson (pathJoin env [out; "README.md"]) (JsonFile (JString PublishRegistry.readme))].

(** The world of [main] once the registry package is generated, when
    packages were added and the last version is [info]. *)
Definition generated (env : Env) (w : World) (info : Semver) : World :=
  snd (PublishRegistry.generate env (typingsData env)
         (PublishRegistry.generatePackageJson (patch info + 1))
         (emit (EFetchVersionInfo PublishRegistry.packageName false)
            (emit EReadTypings
               (emit EReadAdditions
                  (setLogged
                     ["=== Publishing types-registry ===";
                      "New packages have been added: "
                        +:+ jsonStringify env (JArray (JString <$> additions env))
                        +:+ ", so publishing a new registry"] w))))).

(** A cached document is normalised when its versions carry the two
    tracked properties and no other. *)
Definition normalized (info : NpmInfo) : Prop :=
  ∀ ver v, versions info !! ver = Some v -> versionOther v = ∅.

Definition normalizedCache (cache : gmap string NpmInfo) : Prop :=
  ∀ name info, cache !! name = Some info -> normalized info.

(** A call that changes the registry. *)
Definition isRegistryWrite (e : Event) : bool :=
  match e with
  | ERegPublish _ _ | ERegTag _ _ | ERegDeprecate _ _ => true
  | _ => false
  end.

Definition isWriteLog (e : Event) : bool :=
  match e with EWriteLog _ _ => true | _ => false end.

(** The line [main] logs when no package was added. *)
Definition logNothing : string :=
  "No new packages published, so no need to publish new registry.".

(** ** The monad *)

Lemma bind_Ok {A B : Type} (m : Async A) (k : A -> Async B) w a w' :
  m w = (Ok a, w') -> bind m k w = k a w'.
Proof. intros H. unfold bind. now rewrite H. Qed.

Lemma bind_Throw {A B : Type} (m : Async A) (k : A -> Async B) w e w' :
  m w = (Throw e, w') -> bind m k w = (Throw e, w').
Proof. intros H. unfold bind. now rewrite H. Qed.

Lemma since_app w w' events :
  trace w' = trace w ++ events -> since w w' = events.
Proof. intros H. unfold since. rewrite H. apply drop_app_length. Qed.

Lemma since_refl w : since w w = [].
Proof. apply since_app. now rewrite app_nil_r. Qed.

Lemma trace_emit e w : trace (emit e w) = trace w ++ [e].
Proof. reflexivity. Qed.

(** ** Normalisation *)

Lemma recordToMap_identity {T : Type} (record : gmap string T) :
  recordToMap record identity = record.
Proof. unfold recordToMap. apply map_fmap_id. Qed.

Lemma mapToRecord_identity {T : Type} (map : gmap string T) :
  mapToRecord map identity = map.
Proof. unfold mapToRecord. apply map_fmap_id. Qed.

Lemma roundtrip_versions (r : NpmInfoRaw) :
  rawVersions (jsonFromNpmInfo (npmInfoFromJson r)) = pickVersion <$> rawVersions r.
Proof. simpl. now rewrite mapToRecord_identity. Qed.

(** C4. Converting a wire document to the cached shape and back gives the
    document restricted to the tracked fields: [version], [dist-tags] with
    the same pairs, [time.modified], and for every version its
    [typesPublisherContentHash] and [deprecated]; every other property, at
    the top level, under [time] and under a version, is gone. *)
Theorem denormalize_normalize_restricts (r : NpmInfoRaw) :
  let d := jsonFromNpmInfo (npmInfoFromJson r) in
  d = restrictToTracked r
  ∧ rawVersion d = rawVersion r
  ∧ rawDistTags d = rawDistTags r
  ∧ modified (rawTime d) = modified (rawTime r)
  ∧ (∀ ver, typesPublisherContentHash <$> rawVersions d !! ver
             = typesPublisherContentHash <$> rawVersions r !! ver
           ∧ deprecated <$> rawVersions d !! ver = deprecated <$> rawVersions r !! ver)
  ∧ rawOther d = ∅
  ∧ timeOther (rawTime d) = ∅
  ∧ (∀ ver v, rawVersions d !! ver = Some v -> versionOther v = ∅).
Proof.
  intros d. subst d.
  assert (Htags : rawDistTags (jsonFromNpmInfo (npmInfoFromJson r)) = rawDistTags r).
  { simpl. now rewrite mapToRecord_identity, recordToMap_identity. }
  repeat split.
  - unfold restrictToTracked. unfold jsonFromNpmInfo at 1.
    f_equal.
    + exact Htags.
    + apply roundtrip_versions.
  - exact Htags.
  - rewrite roundtrip_versions, lookup_fmap.
    now destruct (rawVersions r !! ver).
  - rewrite roundtrip_versions, lookup_fmap.
    now destruct (rawVersions r !! ver).
  - intros ver v. rewrite roundtrip_versions, lookup_fmap.
    destruct (rawVersions r !! ver); simpl; [|discriminate].
    intros [= <-]. reflexivity.
Qed.

(** The round trip on the demo document: the extra properties are lost,
    the tracked ones stay. *)
Example roundtrip_fooRaw :
  jsonFromNpmInfo (npmInfoFromJson Demo.fooRaw)
  = {| rawVersion := "1.0.0";
       rawDistTags := {[ "latest" := "1.0.0" ]};
       rawVersions :=
         {[ "1.0.0" := {| typesPublisherContentHash := "H"; deprecated := None;
                          versionOther := ∅ |};
            "0.9.0" := {| typesPublisherContentHash := "G";
                          deprecated := Some "use 1.0.0"; versionOther := ∅ |} ]};
       rawTime := {| modified := "2017-01-01T00:00:00.000Z"; timeOther := ∅ |};
       rawOther := ∅ |}.
Proof. vm_compute. reflexivity. Qed.

(** ** The uncached client *)

Lemma isNotFound_spec error : isNotFound error = true <-> error = JString "Not found".
Proof.
  destruct error as [| b | n | text | items | props]; simpl;
    try (split; discriminate).
  rewrite bool_decide_eq_true. split; [now intros -> | now intros [= ->]].
Qed.

(** An answer has an [error] property or is a document without one. *)
Lemma payload_cases payload :
  (∃ error, errorOf payload = Some error)
  ∨ (∃ raw, payload = InfoPayload raw ∧ errorOf payload = None).
Proof.
  destruct payload as [error | raw]; simpl; [eauto|].
  destruct (rawOther raw !! "error") as [error|] eqn:Herror; eauto.
Qed.

(** One run of [fetchRawNpmInfo], case by case on the registry's answer. *)
Lemma fetchRawNpmInfo_cases env name w :
  let w1 := emit (EFetchJson (infoRequest env name)) w in
  let answer := fetchJsonAnswer env (trace w) (infoRequest env name) in
  let run := UncachedNpmInfoClient.fetchRawNpmInfo env name w in
  (∃ payload error, answer = Ok payload ∧ errorOf payload = Some error
                    ∧ isNotFound error = true ∧ run = (Ok None, w1))
  ∨ (∃ payload error, answer = Ok payload ∧ errorOf payload = Some error
                      ∧ isNotFound error = false
                      ∧ run = (Throw {| message := "Error getting version at " +:+ name
                                                     +:+ ": " +:+ templateText error |}, w1))
  ∨ (∃ raw, answer = Ok (InfoPayload raw) ∧ errorOf (InfoPayload raw) = None
            ∧ run = (Ok (Some raw), w1))
  ∨ (∃ e, answer = Throw e ∧ run = (Throw e, w1)).
Proof.
  intros w1 answer run. subst w1 answer run.
  unfold UncachedNpmInfoClient.fetchRawNpmInfo, fetchJson, bind.
  fold (infoRequest env name).
  destruct (fetchJsonAnswer env (trace w) (infoRequest env name))
    as [payload | e]; [|do 3 right; eauto].
  destruct (payload_cases payload) as [[error Herror] | (raw & -> & Hnone)].
  - assert (Hblock :
              match payload with
              | ErrorPayload error => UncachedNpmInfoClient.onError name (JString error)
              | InfoPayload raw =>
                  match rawOther raw !! "error" with
                  | Some error => UncachedNpmInfoClient.onError name error
                  | None => ret (Some raw)
                  end
              end = UncachedNpmInfoClient.onError name error).
    { destruct payload as [text | raw]; simpl in Herror.
      - now injection Herror as <-.
      - now rewrite Herror. }
    rewrite Hblock. unfold UncachedNpmInfoClient.onError, ret, throw.
    destruct (isNotFound error) eqn:Hfound.
    + left. exists payload, error. repeat split; assumption || reflexivity.
    + right. left. exists payload, error. repeat split; assumption || reflexivity.
  - right. right. left. exists raw. simpl in Hnone. rewrite Hnone. repeat split.
    exact Hnone.
Qed.

(** One run of [fetchNpmInfo], case by case on the registry's answer. *)
Lemma fetchNpmInfo_cases env name w :
  let w1 := emit (EFetchJson (infoRequest env name)) w in
  let answer := fetchJsonAnswer env (trace w) (infoRequest env name) in
  let run := UncachedNpmInfoClient.fetchNpmInfo env name w in
  (∃ payload error, answer = Ok payload ∧ errorOf payload = Some error
                    ∧ isNotFound error = true ∧ run = (Ok None, emit (ESleep 10) w1))
  ∨ (∃ payload error, answer = Ok payload ∧ errorOf payload = Some error
                      ∧ isNotFound error = false
                      ∧ run = (Throw {| message := "Error getting version at " +:+ name
                                                     +:+ ": " +:+ templateText error |}, w1))
  ∨ (∃ raw, answer = Ok (InfoPayload raw) ∧ errorOf (InfoPayload raw) = None
            ∧ run = (Ok (Some (npmInfoFromJson raw)), emit (ESleep 10) w1))
  ∨ (∃ e, answer = Throw e ∧ run = (Throw e, w1)).
Proof.
  intros w1 answer run. subst w1 answer run.
  assert (Hbind :
            UncachedNpmInfoClient.fetchNpmInfo env name w
            = match UncachedNpmInfoClient.fetchRawNpmInfo env name w with
              | (Ok raw, w') =>
                  (Ok (match raw with
                       | None => None
                       | Some raw => Some (npmInfoFromJson raw)
                       end), emit (ESleep 10) w')
              | (Throw e, w') => (Throw e, w')
              end).
  { unfold UncachedNpmInfoClient.fetchNpmInfo, bind, sleep, ret.
    now destruct (UncachedNpmInfoClient.fetchRawNpmInfo env name w) as [[raw | e] w']. }
  rewrite Hbind. clear Hbind.
  destruct (fetchRawNpmInfo_cases env name w)
    as [(payload & error & Ha & Herr & Hfound & ->)
       | [(payload & error & Ha & Herr & Hfound & ->)
         | [(raw & Ha & Hnone & ->) | (e & Ha & ->)]]].
  - left. exists payload, error. repeat split; assumption || reflexivity.
  - right. left. exists payload, error. repeat split; assumption || reflexivity.
  - right. right. left. exists raw. repeat split; assumption || reflexivity.
  - do 3 right. exists e. repeat split; assumption || reflexivity.
Qed.

(** A fetch touches neither the cache nor the files, and adds one
    [fetchJson] call to the trace, followed at most by the pause. *)
Lemma fetchNpmInfo_frame env name w :
  let w1 := snd (UncachedNpmInfoClient.fetchNpmInfo env name w) in
  cache w1 = cache w ∧ files w1 = files w ∧ logged w1 = logged w
  ∧ ∃ pause, trace w1 = trace w ++ EFetchJson (infoRequest env name) :: pause
             ∧ (pause = [] ∨ pause = [ESleep 10]).
Proof.
  destruct (fetchNpmInfo_cases env name w)
    as [(payload & error & _ & _ & _ & Hrun)
       | [(payload & error & _ & _ & _ & Hrun)
         | [(raw & _ & _ & Hrun) | (e & _ & Hrun)]]];
    cbn zeta; rewrite Hrun; simpl; repeat split.
  all: try (exists [ESleep 10]; split; [now rewrite <- app_assoc | now right]).
  all: exists []; split; [reflexivity | now left].
Qed.

(** What a fetch returns was built by [npmInfoFromJson]. *)
Lemma fetchNpmInfo_returns_normalised env name w info :
  fst (UncachedNpmInfoClient.fetchNpmInfo env name w) = Ok (Some info) ->
  ∃ raw, info = npmInfoFromJson raw.
Proof.
  destruct (fetchNpmInfo_cases env name w)
    as [(payload & error & _ & _ & _ & Hrun)
       | [(payload & error & _ & _ & _ & Hrun)
         | [(raw & _ & _ & Hrun) | (e & _ & Hrun)]]];
    cbn zeta in Hrun; rewrite Hrun; simpl; try discriminate.
  intros [= <-]. now exists raw.
Qed.

Lemma occursIn_middle before sub after : occursIn sub (before +:+ sub +:+ after).
Proof. now exists before, after. Qed.

Lemma append_cons ch (a b : string) : String ch a +:+ b = String ch (a +:+ b).
Proof. reflexivity. Qed.

Lemma append_assoc (a b c : string) : (a +:+ b) +:+ c = a +:+ (b +:+ c).
Proof.
  induction a as [|ch a IH]; [reflexivity|].
  rewrite !append_cons. f_equal. exact IH.
Qed.

Lemma append_empty_r (a : string) : a +:+ "" = a.
Proof.
  induction a as [|ch a IH]; [reflexivity|].
  rewrite append_cons. f_equal. exact IH.
Qed.

Lemma error_message_carries name error :
  let text := "Error getting version at " +:+ name +:+ ": " +:+ error in
  occursIn name text ∧ occursIn error text.
Proof.
  intros text. subst text. split.
  - apply occursIn_middle.
  - exists ("Error getting version at " +:+ name +:+ ": "), "".
    now rewrite append_empty_r, !append_assoc.
Qed.

(** C5. An error payload is an answer that has an [error] property, as
    the program tests it. [fetchNpmInfo] returns absent exactly when the
    registry answers with an error payload whose error is the string
    ["Not found"]; any other error payload makes it fail with a message
    that carries the package name and the upstream error, which for an
    error string is that string; an answer that is no error payload is a
    document, and what is returned has its version, its dist-tags, its
    [time.modified] and, for every version, the content hash and the
    deprecation message and nothing else. *)
Theorem fetchNpmInfo_outcomes env name w :
  let answer := fetchJsonAnswer env (trace w) (infoRequest env name) in
  let r := fst (UncachedNpmInfoClient.fetchNpmInfo env name w) in
  (r = Ok None
   <-> ∃ payload, answer = Ok payload ∧ errorOf payload = Some (JString "Not found"))
  ∧ (∀ payload error,
       answer = Ok payload -> errorOf payload = Some error ->
       error ≠ JString "Not found" ->
       ∃ e, r = Throw e
            ∧ message e = "Error getting version at " +:+ name +:+ ": "
                            +:+ templateText error
            ∧ occursIn name (message e) ∧ occursIn (templateText error) (message e))
  ∧ (∀ text, errorOf (ErrorPayload text) = Some (JString text)
             ∧ templateText (JString text) = text)
  ∧ (∀ payload,
       answer = Ok payload -> errorOf payload = None ->
       ∃ raw info,
         payload = InfoPayload raw ∧ r = Ok (Some info)
         ∧ info = npmInfoFromJson raw
         ∧ version info = rawVersion raw
         ∧ distTags info = rawDistTags raw
         ∧ timeModified info = modified (rawTime raw)
         ∧ ∀ ver, versions info !! ver
                  = (fun v => {| typesPublisherContentHash := typesPublisherContentHash v;
                                 deprecated := deprecated v;
                                 versionOther := ∅ |}) <$> rawVersions raw !! ver).
Proof.
  intros answer r. subst answer r.
  destruct (fetchNpmInfo_cases env name w)
    as [(payload & error & Ha & Herr & Hfound & Hrun)
       | [(payload & error & Ha & Herr & Hfound & Hrun)
         | [(raw & Ha & Hnone & Hrun) | (e & Ha & Hrun)]]];
    cbn zeta in Ha, Hrun; rewrite Hrun, Ha; cbn [fst].
  - apply isNotFound_spec in Hfound. subst error.
    split; [split; [eauto | reflexivity]|]. split; [|split; [now split|]].
    + intros payload' error' [= <-] Herr' Hne. congruence.
    + intros payload' [= <-] Hnone. congruence.
  - assert (Hne : error ≠ JString "Not found").
    { intros Heq. apply isNotFound_spec in Heq. congruence. }
    split; [split; [discriminate|]|]. 2: split; [|split; [now split|]].
    + intros (payload' & [= <-] & Herr'). congruence.
    + intros payload' error' [= <-] Herr' _.
      assert (error' = error) as -> by congruence.
      eexists. split; [reflexivity|]. split; [reflexivity|].
      apply error_message_carries.
    + intros payload' [= <-] Hnone. congruence.
  - split; [split; [discriminate|]|]. 2: split; [|split; [now split|]].
    + intros (payload' & [= <-] & Herr'). congruence.
    + intros payload' error' [= <-] Herr'. congruence.
    + intros payload' [= <-] _. exists raw, (npmInfoFromJson raw).
      repeat split.
      * apply recordToMap_identity.
      * intros ver. simpl. unfold recordToMap. now rewrite lookup_fmap.
  - split; [split; [discriminate|]|]. 2: split; [|split; [now split|]].
    + intros (payload' & [=] & _).
    + intros payload' error' [=].
    + intros payload' [=].
Qed.

(** The three answers of the demo registry. *)
Example fetchNpmInfo_demo :
  fst (UncachedNpmInfoClient.fetchNpmInfo Demo.env "nothing" Demo.world) = Ok None
  ∧ fst (UncachedNpmInfoClient.fetchNpmInfo Demo.env "broken" Demo.world)
    = Throw {| message := "Error getting version at broken: Internal error" |}
  ∧ fst (UncachedNpmInfoClient.fetchNpmInfo Demo.env "foo" Demo.world)
    = Ok (Some Demo.fooInfo).
Proof. repeat split. Qed.

(** A document that carries a property [error] is taken for an error
    payload and is not returned. *)
Example fetchNpmInfo_flagged_document :
  errorOf (InfoPayload Faults.flaggedRaw) = Some (JString "Deprecated endpoint")
  ∧ fst (UncachedNpmInfoClient.fetchNpmInfo Faults.flaggedEnv "foo" Demo.world)
    = Throw {| message := "Error getting version at foo: Deprecated endpoint" |}.
Proof. split; vm_compute; reflexivity. Qed.

(** ** The cached client *)

Lemma some_values {T : Type} (map : gmap string T) (cb : T -> bool) :
  some (values map) cb = true <-> ∃ k v, map !! k = Some v ∧ cb v = true.
Proof.
  unfold some, values. rewrite existsb_exists. split.
  - intros (v & Hin & Hcb). apply list_elem_of_In, list_elem_of_fmap in Hin.
    destruct Hin as ([k v'] & -> & Hin). apply elem_of_map_to_list in Hin. eauto.
  - intros (k & v & Hlookup & Hcb). exists v. split; [|exact Hcb].
    apply list_elem_of_In, list_elem_of_fmap. exists (k, v).
    split; [reflexivity | now apply elem_of_map_to_list].
Qed.

(** The test of line 59 is the hit condition in words. *)
Lemma isHit_spec (cache : gmap string NpmInfo) name hash :
  CachedNpmInfoClient.isHit (cache !! name) (Some hash) = true
  <-> cachedWithHash cache name hash.
Proof.
  unfold CachedNpmInfoClient.isHit, cachedWithHash.
  destruct (cache !! name) as [info|].
  - rewrite some_values. split.
    + intros (ver & v & Hv & Heq). apply bool_decide_eq_true in Heq. eauto 6.
    + intros (info' & ver & v & [= <-] & Hv & Heq). exists ver, v.
      split; [exact Hv | now apply bool_decide_eq_true].
  - split; [discriminate | now intros (? & ? & ? & ? & _)].
Qed.

Lemma isHit_no_hash cached : CachedNpmInfoClient.isHit cached None = false.
Proof. now destruct cached. Qed.

Lemma getNpmInfo_hit env name contentHash w :
  CachedNpmInfoClient.isHit (cache w !! name) contentHash = true ->
  CachedNpmInfoClient.getNpmInfo env name contentHash w = (Ok (cache w !! name), w).
Proof.
  intros Hhit. unfold CachedNpmInfoClient.getNpmInfo, CachedNpmInfoClient.getCache, bind.
  now rewrite Hhit.
Qed.

(** The fetch path: what [fetchNpmInfo] gives is returned, and stored when
    it is defined and a hash was given. *)
Lemma getNpmInfo_miss env name contentHash w :
  CachedNpmInfoClient.isHit (cache w !! name) contentHash = false ->
  CachedNpmInfoClient.getNpmInfo env name contentHash w =
  let (r, w1) := UncachedNpmInfoClient.fetchNpmInfo env name w in
  (r, match r, contentHash with
      | Ok (Some info), Some _ => setCache (<[name := info]> (cache w1)) w1
      | _, _ => w1
      end).
Proof.
  intros Hmiss. unfold CachedNpmInfoClient.getNpmInfo, CachedNpmInfoClient.getCache, bind.
  rewrite Hmiss.
  destruct (UncachedNpmInfoClient.fetchNpmInfo env name w) as [[[info|]|e] w1];
    destruct contentHash; reflexivity.
Qed.

Lemma getNpmInfo_miss_trace env name contentHash w :
  CachedNpmInfoClient.isHit (cache w !! name) contentHash = false ->
  trace (snd (CachedNpmInfoClient.getNpmInfo env name contentHash w))
  = trace (snd (UncachedNpmInfoClient.fetchNpmInfo env name w)).
Proof.
  intros Hmiss. rewrite getNpmInfo_miss by assumption.
  destruct (UncachedNpmInfoClient.fetchNpmInfo env name w) as [[[info|]|e] w1];
    destruct contentHash; reflexivity.
Qed.

Lemma fetchNpmInfo_one_fetch env name w :
  count isFetch (since w (snd (UncachedNpmInfoClient.fetchNpmInfo env name w))) = 1%nat.
Proof.
  destruct (fetchNpmInfo_frame env name w) as (_ & _ & _ & pause & Htrace & Hpause).
  rewrite (since_app _ _ _ Htrace). now destruct Hpause as [-> | ->].
Qed.

Lemma getNpmInfo_miss_one_fetch env name contentHash w :
  CachedNpmInfoClient.isHit (cache w !! name) contentHash = false ->
  count isFetch (since w (snd (CachedNpmInfoClient.getNpmInfo env name contentHash w)))
  = 1%nat.
Proof.
  intros Hmiss. unfold since. rewrite getNpmInfo_miss_trace by assumption.
  apply fetchNpmInfo_one_fetch.
Qed.

(** C2. With a content hash supplied: when the cache holds an entry for
    the name with a version of that hash, [getNpmInfo] returns that entry
    and leaves the world as it was, so nothing is fetched; when no such
    version exists (no entry, or an entry without the hash), [getNpmInfo]
    makes exactly one fetch. *)
Theorem getNpmInfo_hit_or_one_fetch env (w : World) (name hash : string) :
  let run := CachedNpmInfoClient.getNpmInfo env name (Some hash) w in
  (cachedWithHash (cache w) name hash ->
     ∃ info, cache w !! name = Some info ∧ run = (Ok (Some info), w)
             ∧ count isFetch (since w (snd run)) = 0%nat)
  ∧ (¬ cachedWithHash (cache w) name hash ->
     count isFetch (since w (snd run)) = 1%nat).
Proof.
  intros run. subst run. split.
  - intros Hhit. pose proof Hhit as (info & _ & _ & Hinfo & _).
    apply isHit_spec in Hhit. rewrite (getNpmInfo_hit _ _ _ _ Hhit).
    exists info. rewrite Hinfo. repeat split. simpl. now rewrite since_refl.
  - intros Hmiss. apply getNpmInfo_miss_one_fetch.
    rewrite <- isHit_spec in Hmiss. now apply not_true_is_false.
Qed.

(** C3. On the fetch path the result of the fetch is returned; it is
    stored under the name, over any earlier entry, when it is defined and
    a hash was supplied, and the cache is left as it was otherwise. Without
    a hash [getNpmInfo] fetches whatever the cache holds, returns what the
    fetch gives and leaves the cache as it was. *)
Theorem getNpmInfo_stores_iff_defined_and_hashed env (w : World) (name : string)
    (contentHash : option string) :
  let fetched := UncachedNpmInfoClient.fetchNpmInfo env name w in
  let run := CachedNpmInfoClient.getNpmInfo env name contentHash w in
  (CachedNpmInfoClient.isHit (cache w !! name) contentHash = false ->
     fst run = fst fetched
     ∧ (∀ info hash, fst fetched = Ok (Some info) -> contentHash = Some hash ->
          cache (snd run) = <[name := info]> (cache w))
     ∧ (fst fetched = Ok None ∨ (∃ e, fst fetched = Throw e) ∨ contentHash = None ->
          cache (snd run) = cache w))
  ∧ (contentHash = None ->
       run = fetched
       ∧ count isFetch (since w (snd run)) = 1%nat
       ∧ cache (snd run) = cache w).
Proof.
  intros fetched run. subst fetched run.
  destruct (fetchNpmInfo_frame env name w) as (Hcache & _).
  split.
  - intros Hmiss. rewrite getNpmInfo_miss by assumption.
    destruct (UncachedNpmInfoClient.fetchNpmInfo env name w) as [r w1].
    simpl in *. split; [reflexivity|]. split.
    + intros info hash -> ->. simpl. now rewrite Hcache.
    + intros [-> | [[e ->] | ->]]; try exact Hcache.
      destruct r as [[info|]|e]; exact Hcache.
  - intros ->. rewrite getNpmInfo_miss by apply isHit_no_hash.
    pose proof (fetchNpmInfo_one_fetch env name w) as Hone.
    destruct (UncachedNpmInfoClient.fetchNpmInfo env name w) as [r w1].
    simpl in *.
    assert (Hsame : match r with
                    | Ok (Some _) => w1
                    | _ => w1
                    end = w1) by now destruct r as [[info|]|e].
    rewrite Hsame. auto.
Qed.

(** C10. With a content hash supplied, on the fetch path, when the fetch
    returns absent the cache is left exactly as it was: a stale entry for
    the name is still there, and the files are untouched. *)
Theorem getNpmInfo_absent_keeps_cache env (w : World) (name hash : string) :
  CachedNpmInfoClient.isHit (cache w !! name) (Some hash) = false ->
  fst (UncachedNpmInfoClient.fetchNpmInfo env name w) = Ok None ->
  let run := CachedNpmInfoClient.getNpmInfo env name (Some hash) w in
  fst run = Ok None
  ∧ cache (snd run) = cache w
  ∧ (∀ stale, cache w !! name = Some stale -> cache (snd run) !! name = Some stale)
  ∧ files (snd run) = files w.
Proof.
  intros Hmiss Habsent run. subst run.
  destruct (fetchNpmInfo_frame env name w) as (Hcache & Hfiles & _).
  rewrite getNpmInfo_miss by assumption.
  destruct (UncachedNpmInfoClient.fetchNpmInfo env name w) as [r w1].
  simpl in *. subst r. simpl. rewrite Hcache. auto.
Qed.

(** A hit on [foo] with hash [H], a miss with hash [H2]. *)
Lemma getNpmInfo_hit_or_one_fetch_witness :
  cachedWithHash (cache Demo.cachedWorld) "foo" "H"
  ∧ CachedNpmInfoClient.getNpmInfo Demo.env "foo" (Some "H") Demo.cachedWorld
    = (Ok (Some Demo.fooInfo), Demo.cachedWorld)
  ∧ ¬ cachedWithHash (cache Demo.cachedWorld) "foo" "H2"
  ∧ count isFetch
      (since Demo.cachedWorld
         (snd (CachedNpmInfoClient.getNpmInfo Demo.env "foo" (Some "H2") Demo.cachedWorld)))
    = 1%nat.
Proof.
  assert (Hhit : cachedWithHash (cache Demo.cachedWorld) "foo" "H")
    by (apply isHit_spec; vm_compute; reflexivity).
  assert (Hmiss : ¬ cachedWithHash (cache Demo.cachedWorld) "foo" "H2")
    by (rewrite <- isHit_spec; vm_compute; discriminate).
  split; [exact Hhit|]. split; [|split; [exact Hmiss|]].
  - destruct (proj1 (getNpmInfo_hit_or_one_fetch Demo.env Demo.cachedWorld "foo" "H") Hhit)
      as (info & Hinfo & Hrun & _).
    rewrite Hrun. vm_compute in Hinfo. injection Hinfo as <-. reflexivity.
  - exact (proj2 (getNpmInfo_hit_or_one_fetch Demo.env Demo.cachedWorld "foo" "H2") Hmiss).
Defined.

(** [foo] is stored when fetched with a hash; a package the registry does
    not have, and a fetch without hash, leave the cache as it was. *)
Lemma getNpmInfo_stores_iff_defined_and_hashed_witness :
  CachedNpmInfoClient.isHit (cache Demo.world !! "foo") (Some "H") = false
  ∧ cache (snd (CachedNpmInfoClient.getNpmInfo Demo.env "foo" (Some "H") Demo.world))
    = <["foo" := Demo.fooInfo]> (cache Demo.world)
  ∧ cache (snd (CachedNpmInfoClient.getNpmInfo Demo.env "nothing" (Some "H") Demo.world))
    = cache Demo.world
  ∧ cache (snd (CachedNpmInfoClient.getNpmInfo Demo.env "foo" None Demo.cachedWorld))
    = cache Demo.cachedWorld.
Proof.
  split; [reflexivity|]. split; [|split].
  - destruct (getNpmInfo_stores_iff_defined_and_hashed Demo.env Demo.world "foo" (Some "H"))
      as [Hfetch _].
    destruct (Hfetch eq_refl) as (_ & Hstore & _).
    apply (Hstore Demo.fooInfo "H"); reflexivity.
  - destruct (getNpmInfo_stores_iff_defined_and_hashed Demo.env Demo.world "nothing"
                (Some "H")) as [Hfetch _].
    destruct (Hfetch eq_refl) as (_ & _ & Hkeep).
    apply Hkeep. left. reflexivity.
  - destruct (getNpmInfo_stores_iff_defined_and_hashed Demo.env Demo.cachedWorld "foo" None)
      as [_ Hnone].
    apply Hnone. reflexivity.
Defined.

(** The stale entry for [gone] survives the registry's "Not found". *)
Lemma getNpmInfo_absent_keeps_cache_witness :
  CachedNpmInfoClient.isHit (cache Demo.staleWorld !! "gone") (Some "H2") = false
  ∧ fst (UncachedNpmInfoClient.fetchNpmInfo Demo.env "gone" Demo.staleWorld) = Ok None
  ∧ cache (snd (CachedNpmInfoClient.getNpmInfo Demo.env "gone" (Some "H2") Demo.staleWorld))
      !! "gone" = Some Demo.fooInfo.
Proof.
  split; [reflexivity|]. split; [reflexivity|].
  destruct (getNpmInfo_absent_keeps_cache Demo.env Demo.staleWorld "gone" "H2"
              eq_refl eq_refl) as (_ & _ & Hstale & _).
  apply Hstale. reflexivity.
Defined.

(** ** The session *)

Lemma writeCache_effect env w :
  let file := cacheFile env in
  let content := CacheJson (mapToRecord (cache w) jsonFromNpmInfo) in
  ∃ w', CachedNpmInfoClient.writeCache env w = (Ok tt, w')
        ∧ trace w' = trace w ++ [EEnsureFile file; EWriteJson file content]
        ∧ cache w' = cache w
        ∧ files w' = <[file := content]> (files w)
        ∧ logged w' = logged w.
Proof.
  intros file content. subst file content.
  unfold CachedNpmInfoClient.writeCache, CachedNpmInfoClient.getCache, ensureFile,
    writeJson, bind.
  eexists. split; [reflexivity|]. simpl.
  destruct (files w !! cacheFile env) eqn:Hfile; simpl.
  - rewrite <- app_assoc. auto.
  - rewrite <- app_assoc, insert_insert_eq. auto.
Qed.

(** Loading the cache reads; it writes nothing. *)
Lemma loadCache_reads_only env w :
  let w0 := snd (CachedNpmInfoClient.loadCache env w) in
  files w0 = files w
  ∧ count (isWriteOf (cacheFile env)) (since w w0) = 0%nat.
Proof.
  unfold CachedNpmInfoClient.loadCache, pathExists, readJson, bind, ret. simpl.
  destruct (bool_decide (is_Some (files w !! cacheFile env))); simpl.
  - destruct (files w !! cacheFile env) as [[text | value | record]|]; simpl;
      (split; [reflexivity|]);
      erewrite since_app by (simpl; rewrite <- app_assoc; reflexivity); reflexivity.
  - split; [reflexivity|]. erewrite since_app by reflexivity. reflexivity.
Qed.

Lemma count_write_pair file content :
  count (isWriteOf file) [EEnsureFile file; EWriteJson file content] = 1%nat.
Proof.
  unfold count. rewrite filter_cons_False by (simpl; discriminate).
  rewrite filter_cons_True by (simpl; now apply bool_decide_eq_true).
  reflexivity.
Qed.

(** C1, as the code has it. Once the cache is loaded, a unit of work that
    completes normally is followed by exactly one write of the cache file,
    holding the cache as the unit of work left it, and its result is
    returned; a unit of work that fails ends the session at once: the
    failure reaches the caller and the world is as the unit of work left
    it, with no write of the cache file. *)
Theorem with_writes_cache_when_work_returns {T : Type} env (cb : Async T)
    (w w0 : World) (loaded : gmap string NpmInfo) :
  CachedNpmInfoClient.loadCache env w = (Ok loaded, w0) ->
  let started := setCache loaded w0 in
  let file := cacheFile env in
  count (isWriteOf file) (since w w0) = 0%nat
  ∧ (∀ res w1, cb started = (Ok res, w1) ->
       let content := CacheJson (mapToRecord (cache w1) jsonFromNpmInfo) in
       ∃ w', CachedNpmInfoClient.with_ env cb w = (Ok res, w')
             ∧ trace w' = trace w1 ++ [EEnsureFile file; EWriteJson file content]
             ∧ count (isWriteOf file) (since w1 w') = 1%nat
             ∧ files w' !! file = Some content
             ∧ cache w' = cache w1)
  ∧ (∀ e w1, cb started = (Throw e, w1) ->
       CachedNpmInfoClient.with_ env cb w = (Throw e, w1)).
Proof.
  intros Hload started file. subst started file. split; [|split].
  - pose proof (loadCache_reads_only env w) as [_ Hcount].
    now rewrite Hload in Hcount.
  - intros res w1 Hcb content. subst content.
    destruct (writeCache_effect env w1) as (w' & Hwrite & Htrace & Hcache & Hfiles & _).
    exists w'. split; [|split; [exact Htrace | split; [|split]]].
    + unfold CachedNpmInfoClient.with_.
      rewrite (bind_Ok _ _ _ _ _ Hload).
      unfold CachedNpmInfoClient.new at 1. unfold bind at 1.
      rewrite (bind_Ok _ _ _ _ _ Hcb), (bind_Ok _ _ _ _ _ Hwrite). reflexivity.
    + rewrite (since_app _ _ _ Htrace). apply count_write_pair.
    + rewrite Hfiles. apply lookup_insert_eq.
    + exact Hcache.
  - intros e w1 Hcb. unfold CachedNpmInfoClient.with_.
    rewrite (bind_Ok _ _ _ _ _ Hload).
    unfold CachedNpmInfoClient.new at 1. unfold bind at 1.
    now rewrite (bind_Throw _ _ _ _ _ Hcb).
Qed.

(** A batch that ends normally: the cache file holds [foo] afterwards, and
    the whole session wrote it once. *)
Lemma with_writes_cache_when_work_returns_witness :
  CachedNpmInfoClient.loadCache Demo.env Demo.world
  = (Ok ∅, emit (EPathExists (cacheFile Demo.env)) Demo.world)
  ∧ ∃ w', CachedNpmInfoClient.with_ Demo.env Demo.okBatch Demo.world = (Ok None, w')
          ∧ files w' !! cacheFile Demo.env
            = Some (CacheJson {[ "foo" := jsonFromNpmInfo Demo.fooInfo ]})
          ∧ count (isWriteOf (cacheFile Demo.env)) (trace w') = 1%nat.
Proof.
  split; [reflexivity|].
  destruct (with_writes_cache_when_work_returns Demo.env Demo.okBatch Demo.world
              (emit (EPathExists (cacheFile Demo.env)) Demo.world) ∅ eq_refl)
    as (_ & Hreturns & _).
  assert (Hwork :
            Demo.okBatch (setCache ∅ (emit (EPathExists (cacheFile Demo.env)) Demo.world))
            = (Ok None,
               snd (Demo.okBatch
                      (setCache ∅ (emit (EPathExists (cacheFile Demo.env)) Demo.world)))))
    by (vm_compute; reflexivity).
  destruct (Hreturns _ _ Hwork) as (w' & Hrun & Htrace & _ & Hfiles & _).
  exists w'. split; [exact Hrun|]. split.
  - rewrite Hfiles. vm_compute. reflexivity.
  - rewrite Htrace. vm_compute. reflexivity.
Defined.

(** C1 as the spec has it fails: a batch that caches [foo] and then fails
    on [broken] ends the session with the failure, the entry for [foo] in
    memory, no write in the trace and no cache file on disk. *)
Lemma with_skips_write_when_work_throws :
  fst (CachedNpmInfoClient.with_ Demo.env Demo.failingBatch Demo.world)
  = Throw {| message := "Error getting version at broken: Internal error" |}
  ∧ cache (snd (CachedNpmInfoClient.with_ Demo.env Demo.failingBatch Demo.world)) !! "foo"
    = Some Demo.fooInfo
  ∧ count (isWriteOf (cacheFile Demo.env))
      (trace (snd (CachedNpmInfoClient.with_ Demo.env Demo.failingBatch Demo.world)))
    = 0%nat
  ∧ files (snd (CachedNpmInfoClient.with_ Demo.env Demo.failingBatch Demo.world))
      !! cacheFile Demo.env = None.
Proof. vm_compute. repeat split. Qed.

(** ** The publish client *)

Lemma prefix_slash_cons ch rest :
  ch ≠ "/"%char -> String.prefix "/" (String ch rest) = false.
Proof.
  intros Hne.
  change (String.prefix "/" (String ch rest))
    with (if Ascii.ascii_dec "/" ch then String.prefix "" rest else false).
  destruct (Ascii.ascii_dec "/" ch) as [Heq | _]; [|reflexivity].
  now subst ch.
Qed.

Lemma prefix_slash_slash rest : String.prefix "/" (String "/" rest) = true.
Proof.
  change (String.prefix "/" (String "/" rest))
    with (if Ascii.ascii_dec "/" "/" then String.prefix "" rest else false).
  destruct (Ascii.ascii_dec "/" "/") as [_ | Hne]; [|contradiction].
  now destruct rest.
Qed.

Lemma String_replace_cons ch s pattern replacement :
  String_replace (String ch s) pattern replacement
  = if String.prefix pattern (String ch s)
    then replacement +:+ dropString (String.length pattern) (String ch s)
    else String ch (String_replace s pattern replacement).
Proof. reflexivity. Qed.

Lemma hasSlash_cons ch s :
  hasSlash (String ch s) = false -> ch ≠ "/"%char ∧ hasSlash s = false.
Proof.
  change (hasSlash (String ch s)) with (bool_decide (ch = "/"%char) || hasSlash s).
  intros H. apply orb_false_iff in H as [Hch Hs].
  now apply bool_decide_eq_false in Hch.
Qed.

(** [replace("/", "%2f")] encodes the first slash of the name. *)
Lemma String_replace_first_slash scope rest :
  hasSlash scope = false ->
  String_replace (scope +:+ "/" +:+ rest) "/" "%2f" = scope +:+ "%2f" +:+ rest.
Proof.
  induction scope as [|ch scope IH]; intros Hscope.
  - change ("" +:+ "/" +:+ rest) with (String "/" rest).
    now rewrite String_replace_cons, prefix_slash_slash.
  - apply hasSlash_cons in Hscope as [Hch Hscope].
    rewrite !append_cons, String_replace_cons, prefix_slash_cons by assumption.
    f_equal. now apply IH.
Qed.

Lemma String_replace_no_slash name :
  hasSlash name = false -> String_replace name "/" "%2f" = name.
Proof.
  induction name as [|ch name IH]; intros Hname; [reflexivity|].
  apply hasSlash_cons in Hname as [Hch Hname].
  rewrite String_replace_cons, prefix_slash_cons by assumption.
  f_equal. now apply IH.
Qed.

(** Only the first slash is rewritten. *)
Example String_replace_demo :
  String_replace "@scope/pkg" "/" "%2f" = "@scope%2fpkg"
  ∧ String_replace "a/b/c" "/" "%2f" = "a%2fb/c"
  ∧ String_replace "pkg" "/" "%2f" = "pkg".
Proof. repeat split. Qed.

Lemma hasSlash_append a b : hasSlash (a +:+ b) = hasSlash a || hasSlash b.
Proof.
  induction a as [|ch a IH]; [reflexivity|].
  rewrite append_cons.
  change (hasSlash (String ch (a +:+ b)))
    with (bool_decide (ch = "/"%char) || hasSlash (a +:+ b)).
  change (hasSlash (String ch a)) with (bool_decide (ch = "/"%char) || hasSlash a).
  now rewrite IH, orb_assoc.
Qed.

Lemma deprecate_run env this packageName version message w :
  NpmPublishClient.deprecate env this packageName version message w =
  let url := packageUrl env (String_replace packageName "/" "%2f") in
  let params := {| deprecateMessage := message; deprecateVersion := version;
                   deprecateAuth := auth this |} in
  (match deprecateCallsBack env (trace w) url params with
   | Some error => Throw error
   | None => Ok tt
   end,
   emit (ERegDeprecate url params) w).
Proof.
  unfold NpmPublishClient.deprecate, promisifyVoid, regDeprecate, bind. simpl.
  now destruct (deprecateCallsBack env (trace w) _ _).
Qed.

(** C6. For a name with a slash, the one call [deprecate] makes to the
    registry goes to the URL resolved from the name with that slash, the
    first of the name, written [%2f]; a scoped name, which has one slash,
    has none left. *)
Theorem deprecate_encodes_slash env this (scope rest version message : string) w :
  hasSlash scope = false ->
  let packageName := scope +:+ "/" +:+ rest in
  let encoded := scope +:+ "%2f" +:+ rest in
  since w (snd (NpmPublishClient.deprecate env this packageName version message w))
  = [ERegDeprecate (urlResolve env (npmRegistry env) encoded)
       {| deprecateMessage := message; deprecateVersion := version;
          deprecateAuth := auth this |}]
  ∧ occursIn "%2f" encoded
  ∧ (hasSlash rest = false -> hasSlash encoded = false).
Proof.
  intros Hscope packageName encoded. subst packageName encoded.
  rewrite deprecate_run. unfold packageUrl.
  rewrite String_replace_first_slash by assumption. split; [|split].
  - now apply since_app.
  - apply occursIn_middle.
  - intros Hrest. rewrite !hasSlash_append, Hscope, Hrest. reflexivity.
Qed.

(** [deprecate("@scope/pkg", "1.0.0", "msg")] against the demo registry. *)
Lemma deprecate_encodes_slash_witness :
  hasSlash "@scope" = false
  ∧ since Demo.world
      (snd (NpmPublishClient.deprecate Demo.env Demo.client "@scope/pkg" "1.0.0" "msg"
              Demo.world))
    = [ERegDeprecate "https://registry.npmjs.org/@scope%2fpkg"
         {| deprecateMessage := "msg"; deprecateVersion := "1.0.0";
            deprecateAuth := {| token := "secret" |} |}].
Proof.
  split; [reflexivity|].
  exact (proj1 (deprecate_encodes_slash Demo.env Demo.client "@scope" "pkg" "1.0.0" "msg"
                  Demo.world eq_refl)).
Defined.

(** One run of [publish], case by case on the readme, the [dry] flag and
    the registry. *)
Lemma publish_run env this dir packageJson dry w :
  NpmPublishClient.publish env this dir packageJson dry w =
  let file := joinPaths env [dir; "README.md"] in
  match files w !! file with
  | None => (Throw {| message := "ENOENT: " +:+ file |}, emit (EReadFile file) w)
  | Some content =>
      let w2 := emit (ECreateTgz dir) (emit (EReadFile file) w) in
      if dry then (Ok tt, w2)
      else
        let params := {| access := "public";
                         publishAuth := auth this;
                         metadata := packageJson ∪ {[ "readme" := JString (fileText env content) ]};
                         body := {| tgzOf := dir |} |} in
        (match publishSettles env (trace w2) (npmRegistry env) params with
         | Some err => Throw err
         | None => Ok tt
         end,
         emit (ERegPublish (npmRegistry env) params) w2)
  end.
Proof.
  unfold NpmPublishClient.publish, readFile, createTgz, regPublish, bind, ret.
  destruct (files w !! joinPaths env [dir; "README.md"]); [|reflexivity].
  destruct dry; reflexivity.
Qed.

(** C7, as the code has it. A dry [publish] makes no network call. It
    resolves when [README.md] of the directory can be read, and fails with
    the read error when it cannot. *)
Theorem publish_dry_makes_no_network_call env this (dir : string)
    (packageJson : gmap string Json) (w : World) :
  let run := NpmPublishClient.publish env this dir packageJson true w in
  let file := joinPaths env [dir; "README.md"] in
  count isNetworkCall (since w (snd run)) = 0%nat
  ∧ (is_Some (files w !! file) -> fst run = Ok tt)
  ∧ (files w !! file = None -> fst run = Throw {| message := "ENOENT: " +:+ file |}).
Proof.
  intros run file. subst run file. rewrite publish_run. simpl.
  destruct (files w !! joinPaths env [dir; "README.md"]) as [content|]; simpl.
  - split; [|split; [reflexivity | discriminate]].
    erewrite since_app by (simpl; rewrite <- app_assoc; reflexivity). reflexivity.
  - split; [|split; [intros [? [=]] | reflexivity]].
    erewrite since_app by reflexivity. reflexivity.
Qed.

(** A dry publish of a directory that has its readme. *)
Lemma publish_dry_makes_no_network_call_witness :
  is_Some (files Demo.readmeWorld !! joinPaths Demo.env ["dir"; "README.md"])
  ∧ fst (NpmPublishClient.publish Demo.env Demo.client "dir" ∅ true Demo.readmeWorld) = Ok tt
  ∧ count isNetworkCall
      (since Demo.readmeWorld
         (snd (NpmPublishClient.publish Demo.env Demo.client "dir" ∅ true Demo.readmeWorld)))
    = 0%nat.
Proof.
  assert (Hreadme : is_Some (files Demo.readmeWorld !! joinPaths Demo.env ["dir"; "README.md"]))
    by (exists (Text "# readme"); vm_compute; reflexivity).
  destruct (publish_dry_makes_no_network_call Demo.env Demo.client "dir" ∅ Demo.readmeWorld)
    as (Hnone & Hok & _).
  split; [exact Hreadme|]. split; [exact (Hok Hreadme) | exact Hnone].
Defined.

(** C7 as the spec has it fails: a dry [publish] of a directory without
    [README.md] does not resolve. *)
Lemma publish_dry_fails_without_readme :
  NpmPublishClient.publish Demo.env Demo.client "dir" ∅ true Demo.world
  = (Throw {| message := "ENOENT: dir/README.md" |},
     emit (EReadFile "dir/README.md") Demo.world).
Proof. vm_compute. reflexivity. Qed.

(** ** The driver *)

(** C8. With no package added since the last publish, [main] ends
    normally; it has read the additions and written the log, whose two
    lines end with the one saying that no new package was published, and
    it has made no network call. *)
Theorem main_nothing_changed env (dry : bool) (w : World) :
  additions env = [] ->
  let run := PublishRegistry.main env dry w in
  let lines := ["=== Publishing types-registry ===";
                "No new packages published, so no need to publish new registry."] in
  fst run = Ok tt
  ∧ since w (snd run) = [EReadAdditions; EWriteLog "publish-registry.md" lines]
  ∧ logged (snd run) = lines
  ∧ count isNetworkCall (since w (snd run)) = 0%nat.
Proof.
  intros Hnone run lines. subst run lines.
  unfold PublishRegistry.main, PublishRegistry.logger, PublishRegistry.log,
    PublishRegistry.readAdditions, PublishRegistry.logResult, PublishRegistry.writeLog,
    bind.
  rewrite Hnone. simpl. split; [reflexivity|].
  erewrite since_app by (simpl; rewrite <- app_assoc; reflexivity).
  repeat split.
Qed.

(** The run of the driver when nothing was added. *)
Lemma main_nothing_changed_witness :
  additions Demo.quietEnv = []
  ∧ since Demo.world (snd (PublishRegistry.main Demo.quietEnv false Demo.world))
    = [EReadAdditions;
       EWriteLog "publish-registry.md"
         ["=== Publishing types-registry ===";
          "No new packages published, so no need to publish new registry."]].
Proof.
  split; [reflexivity|].
  exact (proj1 (proj2 (main_nothing_changed Demo.quietEnv false Demo.world
                         eq_refl))).
Defined.

Lemma foldl_entries typings (acc : gmap string Json) name :
  foldl (fun entries t => <[typingsPackageName t := JNumber 1]> entries) acc typings !! name
  = if bool_decide (name ∈ typingsPackageName <$> typings) then Some (JNumber 1)
    else acc !! name.
Proof.
  revert acc. induction typings as [|t typings IH]; intros acc; simpl.
  - reflexivity.
  - rewrite IH. rewrite lookup_insert.
    destruct (decide (typingsPackageName t = name)) as [<- | Hne].
    + rewrite (bool_decide_eq_true_2 (_ ∈ _ :: _)) by left.
      now destruct (bool_decide _).
    + destruct (bool_decide_reflect (name ∈ typingsPackageName <$> typings)) as [Hin | Hout].
      * rewrite bool_decide_eq_true_2 by now right. reflexivity.
      * rewrite bool_decide_eq_false_2; [reflexivity|].
        intros [Heq | Hin]%elem_of_cons; [congruence | contradiction].
Qed.

Lemma generate_run env typings packageJson w :
  PublishRegistry.generate env typings packageJson w =
  let out := PublishRegistry.outputPath env in
  let pkgFile := pathJoin env [out; "package.json"] in
  let indexFile := pathJoin env [out; "index.json"] in
  let readmeFile := pathJoin env [out; "README.md"] in
  (Ok tt,
   {| files := <[readmeFile := JsonFile (JString PublishRegistry.readme)]>
                 (<[indexFile := JsonFile (PublishRegistry.generateRegistry typings)]>
                    (<[pkgFile := JsonFile (JObject packageJson)]>
                       (clearedFiles env out (files w))));
      cache := cache w;
      logged := logged w ++ clearLogs env out;
      trace := trace w ++ [EClearOutputPath out;
                           EWriteJson pkgFile (JsonFile (JObject packageJson));
                           EWriteJson indexFile (JsonFile (PublishRegistry.generateRegistry typings));
                           EWriteJson readmeFile (JsonFile (JString PublishRegistry.readme))] |}).
Proof.
  unfold PublishRegistry.generate, PublishRegistry.clearOutputPath,
    PublishRegistry.writeOutputFile, writeJson, bind, emit, setFiles, setLogged.
  cbn [files cache logged trace]. rewrite <- !app_assoc. reflexivity.
Qed.

Lemma main_changed_run env dry w info :
  additions env ≠ [] ->
  versionInfoAnswer env (trace w ++ [EReadAdditions; EReadTypings])
    PublishRegistry.packageName false = Ok info ->
  PublishRegistry.main env dry w =
  bind (PublishRegistry.publish env (PublishRegistry.generatePackageJson (patch info + 1)) dry)
       (fun _ => bind PublishRegistry.logResult
                   (fun lines => PublishRegistry.writeLog "publish-registry.md" lines))
       (generated env w info).
Proof.
  intros Hadded Hanswer. unfold generated.
  unfold PublishRegistry.main, PublishRegistry.logger, PublishRegistry.log,
    PublishRegistry.readAdditions.
  unfold bind at 1 2 3 4.
  destruct (additions env) as [|added0 added] eqn:Hadd; [contradiction|].
  cbn [length Nat.eqb negb].
  unfold bind at 1 2.
  unfold PublishRegistry.generateAndPublishRegistry, PublishRegistry.readTypings,
    PublishRegistry.fetchLastPatchNumber, PublishRegistry.fetchVersionInfoFromNpm.
  unfold bind at 1 2 3 4. cbn [trace emit setLogged].
  rewrite <- app_assoc. simpl app. rewrite Hanswer.
  unfold ret at 1.
  rewrite generate_run. unfold bind at 1 2. rewrite generate_run.
  reflexivity.
Qed.

Lemma generated_trace env w info :
  trace (generated env w info)
  = trace w ++ [EReadAdditions; EReadTypings;
                EFetchVersionInfo PublishRegistry.packageName false]
      ++ registryFiles env (PublishRegistry.generatePackageJson (patch info + 1)).
Proof.
  unfold generated. rewrite generate_run. cbn [snd trace emit setLogged].
  rewrite <- !app_assoc. reflexivity.
Qed.

Lemma generated_readme env w info :
  files (generated env w info)
    !! joinPaths env [PublishRegistry.outputPath env; "README.md"]
  = Some (JsonFile (JString PublishRegistry.readme)).
Proof.
  unfold generated. rewrite generate_run. cbn [snd files]. apply lookup_insert_eq.
Qed.

Lemma generatePackageJson_version patch :
  PublishRegistry.generatePackageJson patch !! "version"
  = Some (JString ("0.1." +:+ pretty patch)).
Proof. reflexivity. Qed.

Lemma generatePackageJson_name patch :
  PublishRegistry.generatePackageJson patch !! "name" = Some (JString "types-registry").
Proof. reflexivity. Qed.

Lemma publish_phase_trace env (packageJson : gmap string Json) dry w content :
  files w !! joinPaths env [PublishRegistry.outputPath env; "README.md"] = Some content ->
  let run := bind (PublishRegistry.publish env packageJson dry)
               (fun _ => bind PublishRegistry.logResult
                           (fun lines => PublishRegistry.writeLog "publish-registry.md" lines))
               w in
  ∃ rest, trace (snd run) = trace w ++ EGetSecret :: rest
          ∧ (dry = false -> ∀ token, npmToken env = Ok token ->
               ∃ params rest',
                 rest = [EReadFile (joinPaths env [PublishRegistry.outputPath env; "README.md"]);
                         ECreateTgz (PublishRegistry.outputPath env);
                         ERegPublish (npmRegistry env) params] ++ rest'
                 ∧ metadata params
                   = packageJson ∪ {[ "readme" := JString (fileText env content) ]}).
Proof.
  intros Hreadme run. subst run.
  unfold PublishRegistry.publish, NpmPublishClient.create, getSecret.
  unfold bind at 1 2 3.
  destruct (npmToken env) as [token | e].
  - unfold ret at 1. rewrite publish_run. cbn zeta.
    change (files (emit EGetSecret w)) with (files w). rewrite Hreadme.
    destruct dry.
    + eexists. split; [|discriminate].
      unfold bind, PublishRegistry.logResult, PublishRegistry.writeLog. simpl.
      rewrite <- !app_assoc. reflexivity.
    + destruct (publishSettles env _ (npmRegistry env) _) as [err|].
      * eexists. split; [simpl; rewrite <- !app_assoc; reflexivity|].
        intros _ token' _. eexists. exists []. split; reflexivity.
      * eexists. split.
        { unfold bind, PublishRegistry.logResult, PublishRegistry.writeLog. simpl.
          rewrite <- !app_assoc. reflexivity. }
        intros _ token' _. eexists. eexists. split; reflexivity.
  - exists []. split; [reflexivity|]. intros _ token' [=].
Qed.

(** C9. When packages were added and the registry reports [info] as the
    last published version of [types-registry], [main] generates the
    manifest with version [0.1.] followed by the last patch number plus
    one, and the index whose entries map the name of every known package,
    and nothing else, to 1; it writes both before it asks for the token;
    and, unless the run is dry, with the token at hand it calls the
    registry's publish once the files are written, with that name and
    that version in the metadata. *)
Theorem main_publishes_next_patch env (dry : bool) (w : World) (info : Semver) :
  additions env ≠ [] ->
  versionInfoAnswer env (trace w ++ [EReadAdditions; EReadTypings])
    PublishRegistry.packageName false = Ok info ->
  let next := PublishRegistry.generatePackageJson (patch info + 1) in
  let events := since w (snd (PublishRegistry.main env dry w)) in
  let entries := PublishRegistry.registryEntries (typingsData env) in
  next !! "version" = Some (JString ("0.1." +:+ pretty (patch info + 1)))
  ∧ PublishRegistry.generateRegistry (typingsData env) = JObject {[ "entries" := JObject entries ]}
  ∧ (∀ t, t ∈ typingsData env -> entries !! typingsPackageName t = Some (JNumber 1))
  ∧ (∀ name v, entries !! name = Some v ->
       v = JNumber 1 ∧ ∃ t, t ∈ typingsData env ∧ typingsPackageName t = name)
  ∧ (∃ rest, events = [EReadAdditions; EReadTypings;
                       EFetchVersionInfo PublishRegistry.packageName false]
                      ++ registryFiles env next ++ EGetSecret :: rest)
  ∧ (dry = false -> ∀ token, npmToken env = Ok token ->
       ∃ params rest,
         events = [EReadAdditions; EReadTypings;
                   EFetchVersionInfo PublishRegistry.packageName false]
                  ++ registryFiles env next
                  ++ [EGetSecret;
                      EReadFile (joinPaths env [PublishRegistry.outputPath env; "README.md"]);
                      ECreateTgz (PublishRegistry.outputPath env);
                      ERegPublish (npmRegistry env) params] ++ rest
         ∧ metadata params !! "name" = Some (JString "types-registry")
         ∧ metadata params !! "version"
           = Some (JString ("0.1." +:+ pretty (patch info + 1)))).
Proof.
  intros Hadded Hanswer next events entries. subst next events entries.
  split; [apply generatePackageJson_version|]. split; [reflexivity|].
  split; [|split].
  - intros t Ht. unfold PublishRegistry.registryEntries. rewrite foldl_entries.
    rewrite bool_decide_eq_true_2; [reflexivity|].
    apply list_elem_of_fmap. now exists t.
  - intros name v. unfold PublishRegistry.registryEntries. rewrite foldl_entries.
    destruct (bool_decide_reflect (name ∈ typingsPackageName <$> typingsData env))
      as [Hin | _]; [|now rewrite lookup_empty].
    intros [= <-]. split; [reflexivity|].
    apply list_elem_of_fmap in Hin as (t & -> & Ht). now exists t.
  - rewrite (main_changed_run _ _ _ _ Hadded Hanswer).
    destruct (publish_phase_trace env
                (PublishRegistry.generatePackageJson (patch info + 1)) dry
                (generated env w info) _ (generated_readme env w info))
      as (rest & Htrace & Hpublish).
    rewrite generated_trace in Htrace. split.
    + exists rest. apply since_app. rewrite Htrace, <- !app_assoc. reflexivity.
    + intros Hwet token Htoken.
      destruct (Hpublish Hwet token Htoken) as (params & rest' & -> & Hmeta).
      exists params, rest'. split; [|split].
      * apply since_app. rewrite Htrace, <- !app_assoc. reflexivity.
      * rewrite Hmeta. apply lookup_union_Some_l, generatePackageJson_name.
      * rewrite Hmeta. apply lookup_union_Some_l, generatePackageJson_version.
Qed.

(** Last patch 41: the next version is [0.1.42], and it is the one
    published. *)
Lemma main_publishes_next_patch_witness :
  additions Demo.env ≠ []
  ∧ versionInfoAnswer Demo.env (trace Demo.world ++ [EReadAdditions; EReadTypings])
      PublishRegistry.packageName false = Ok {| major := 0; minor := 1; patch := 41 |}
  ∧ PublishRegistry.generatePackageJson (41 + 1) !! "version" = Some (JString "0.1.42")
  ∧ PublishRegistry.registryEntries (typingsData Demo.env)
    = {[ "foo" := JNumber 1; "bar" := JNumber 1 ]}
  ∧ ∃ params rest,
      since Demo.world (snd (PublishRegistry.main Demo.env false Demo.world))
      = [EReadAdditions; EReadTypings; EFetchVersionInfo "types-registry" false]
        ++ registryFiles Demo.env (PublishRegistry.generatePackageJson 42)
        ++ [EGetSecret; EReadFile "output/types-registry/README.md";
            ECreateTgz "output/types-registry";
            ERegPublish "https://registry.npmjs.org/" params] ++ rest
      ∧ metadata params !! "version" = Some (JString "0.1.42").
Proof.
  assert (Hadded : additions Demo.env ≠ []) by discriminate.
  split; [exact Hadded|]. split; [reflexivity|].
  split; [vm_compute; reflexivity|]. split; [vm_compute; reflexivity|].
  destruct (main_publishes_next_patch Demo.env false Demo.world
              {| major := 0; minor := 1; patch := 41 |} Hadded eq_refl)
    as (_ & _ & _ & _ & _ & Hpublish).
  destruct (Hpublish eq_refl "secret" eq_refl) as (params & rest & Hevents & _ & Hversion).
  exists params, rest. split; [exact Hevents | exact Hversion].
Defined.

(** * Further properties of the code *)

(** ** Saving and loading the cache *)

Lemma pickVersion_fixed v : versionOther v = ∅ -> pickVersion v = v.
Proof. destruct v as [h d o]. simpl. now intros ->. Qed.

Lemma npmInfoFromJson_normalized r : normalized (npmInfoFromJson r).
Proof.
  intros ver v. simpl. unfold recordToMap. rewrite lookup_fmap.
  destruct (rawVersions r !! ver); simpl; [|discriminate]. now intros [= <-].
Qed.

Lemma reload_versions n :
  versions (npmInfoFromJson (jsonFromNpmInfo n)) = pickVersion <$> versions n.
Proof. simpl. now rewrite mapToRecord_identity. Qed.

Lemma reload_normalized n :
  normalized n -> npmInfoFromJson (jsonFromNpmInfo n) = n.
Proof.
  intros Hnorm. destruct n as [ver tags vs time].
  unfold npmInfoFromJson, jsonFromNpmInfo.
  cbn [rawVersion rawDistTags rawVersions rawTime modified
       version distTags versions timeModified].
  rewrite ?mapToRecord_identity, ?recordToMap_identity. f_equal.
  unfold recordToMap. apply map_eq. intros k. rewrite lookup_fmap.
  destruct (vs !! k) as [v|] eqn:Hv; simpl; [|reflexivity].
  f_equal. apply pickVersion_fixed. exact (Hnorm k v Hv).
Qed.

(** X1. Writing a cached document with [jsonFromNpmInfo] and reading it
    back with [npmInfoFromJson] gives the same document exactly when none
    of its versions carries a property besides the two tracked ones; what
    [npmInfoFromJson] builds is always of that kind. *)
Theorem reload_is_identity_iff_normalized (n : NpmInfo) :
  (npmInfoFromJson (jsonFromNpmInfo n) = n <-> normalized n)
  ∧ (∀ r, npmInfoFromJson (jsonFromNpmInfo (npmInfoFromJson r)) = npmInfoFromJson r).
Proof.
  split; [split|].
  - intros Heq ver v Hv. rewrite <- Heq in Hv.
    exact (npmInfoFromJson_normalized _ ver v Hv).
  - apply reload_normalized.
  - intros r. apply reload_normalized, npmInfoFromJson_normalized.
Qed.

Lemma reload_cache (cache : gmap string NpmInfo) :
  normalizedCache cache ->
  recordToMap (mapToRecord cache jsonFromNpmInfo) npmInfoFromJson = cache.
Proof.
  intros Hnorm. unfold recordToMap, mapToRecord. apply map_eq. intros name.
  rewrite !lookup_fmap. destruct (cache !! name) as [info|] eqn:Hinfo; simpl; [|reflexivity].
  f_equal. apply reload_normalized. exact (Hnorm name info Hinfo).
Qed.

Lemma loadCache_run env w :
  CachedNpmInfoClient.loadCache env w =
  match files w !! cacheFile env with
  | None => (Ok ∅, emit (EPathExists (cacheFile env)) w)
  | Some (CacheJson record) =>
      (Ok (recordToMap record npmInfoFromJson),
       emit (EReadJson (cacheFile env)) (emit (EPathExists (cacheFile env)) w))
  | Some _ =>
      (Throw {| message := "Unexpected content of " +:+ cacheFile env |},
       emit (EReadJson (cacheFile env)) (emit (EPathExists (cacheFile env)) w))
  end.
Proof.
  unfold CachedNpmInfoClient.loadCache, pathExists, readJson, bind, ret. simpl.
  destruct (files w !! cacheFile env) as [[text | value | record]|] eqn:Hfile.
  - rewrite bool_decide_eq_true_2 by eauto.
    change (files (emit (EPathExists (cacheFile env)) w)) with (files w).
    now rewrite Hfile.
  - rewrite bool_decide_eq_true_2 by eauto.
    change (files (emit (EPathExists (cacheFile env)) w)) with (files w).
    now rewrite Hfile.
  - rewrite bool_decide_eq_true_2 by eauto.
    change (files (emit (EPathExists (cacheFile env)) w)) with (files w).
    now rewrite Hfile.
  - rewrite bool_decide_eq_false_2 by (intros [? [=]]). reflexivity.
Qed.

Lemma loadCache_normalized env w w0 loaded :
  CachedNpmInfoClient.loadCache env w = (Ok loaded, w0) -> normalizedCache loaded.
Proof.
  rewrite loadCache_run.
  destruct (files w !! cacheFile env) as [[text | value | record]|];
    intros [= <- <-]; intros name info.
  - unfold recordToMap. rewrite lookup_fmap.
    destruct (record !! name); simpl; [|discriminate].
    intros [= <-]. apply npmInfoFromJson_normalized.
  - now rewrite lookup_empty.
Qed.

(** X2. When the cache is loaded, every entry is normalised and the files
    are as before. Without a cache file the cache starts empty and the file
    is not read; with one, each entry is the normalisation of the record
    of the same name. *)
Theorem loadCache_gives_normalized_cache env (w w0 : World)
    (loaded : gmap string NpmInfo) :
  CachedNpmInfoClient.loadCache env w = (Ok loaded, w0) ->
  normalizedCache loaded
  ∧ files w0 = files w
  ∧ (files w !! cacheFile env = None ->
       loaded = ∅ ∧ since w w0 = [EPathExists (cacheFile env)])
  ∧ (∀ record, files w !! cacheFile env = Some (CacheJson record) ->
       ∀ name, loaded !! name = npmInfoFromJson <$> record !! name).
Proof.
  intros Hload. split; [exact (loadCache_normalized _ _ _ _ Hload)|].
  revert Hload. rewrite loadCache_run.
  destruct (files w !! cacheFile env) as [[text | value | record]|] eqn:Hfile;
    intros [= <- <-]; (split; [reflexivity|split]).
  - discriminate.
  - intros record' [= <-] name. unfold recordToMap. apply lookup_fmap.
  - intros _. split; [reflexivity|]. now apply since_app.
  - discriminate.
Qed.

(** A cache file written with extra properties is loaded without them. *)
Lemma loadCache_gives_normalized_cache_witness :
  CachedNpmInfoClient.loadCache Demo.env Faults.savedWorld
  = (Ok {[ "foo" := Demo.fooInfo ]},
     emit (EReadJson (cacheFile Demo.env))
       (emit (EPathExists (cacheFile Demo.env)) Faults.savedWorld))
  ∧ normalizedCache {[ "foo" := Demo.fooInfo ]}.
Proof.
  assert (Hload : CachedNpmInfoClient.loadCache Demo.env Faults.savedWorld
                  = (Ok {[ "foo" := Demo.fooInfo ]},
                     emit (EReadJson (cacheFile Demo.env))
                       (emit (EPathExists (cacheFile Demo.env)) Faults.savedWorld)))
    by (vm_compute; reflexivity).
  split; [exact Hload|].
  exact (proj1 (loadCache_gives_normalized_cache _ _ _ _ Hload)).
Defined.

(** ** The cached client: invariant, frame, repeated calls *)

Lemma getNpmInfo_normalized env (w : World) (name : string)
    (contentHash : option string) :
  normalizedCache (cache w) ->
  normalizedCache (cache (snd (CachedNpmInfoClient.getNpmInfo env name contentHash w))).
Proof.
  intros Hnorm.
  destruct (CachedNpmInfoClient.isHit (cache w !! name) contentHash) eqn:Hhit.
  - now rewrite getNpmInfo_hit.
  - rewrite getNpmInfo_miss by assumption.
    pose proof (fetchNpmInfo_frame env name w) as (Hcache & _).
    pose proof (fetchNpmInfo_returns_normalised env name w) as Hbuilt.
    destruct (UncachedNpmInfoClient.fetchNpmInfo env name w) as [r w1].
    simpl in Hcache, Hbuilt. simpl.
    destruct r as [[info|]|e]; destruct contentHash as [hash|]; simpl;
      rewrite ?Hcache; try exact Hnorm.
    intros other info' Hlookup.
    destruct (decide (name = other)) as [<- | Hne].
    + rewrite lookup_insert_eq in Hlookup. injection Hlookup as <-.
      destruct (Hbuilt info eq_refl) as [raw ->]. apply npmInfoFromJson_normalized.
    + rewrite lookup_insert_ne in Hlookup by assumption. exact (Hnorm other info' Hlookup).
Qed.

(** X3. [getNpmInfo] keeps the cache normalised: what it stores comes from
    [npmInfoFromJson]. *)
Theorem getNpmInfo_keeps_normalized env (w : World) (name : string)
    (contentHash : option string) :
  normalizedCache (cache w) ->
  normalizedCache (cache (snd (CachedNpmInfoClient.getNpmInfo env name contentHash w)))
  ∧ (∀ info, fst (CachedNpmInfoClient.getNpmInfo env name contentHash w) = Ok (Some info) ->
       normalized info).
Proof.
  intros Hnorm. split; [now apply getNpmInfo_normalized|].
  intros info.
  destruct (CachedNpmInfoClient.isHit (cache w !! name) contentHash) eqn:Hhit.
  - rewrite getNpmInfo_hit by assumption. simpl. intros [= Hinfo].
    exact (Hnorm name info Hinfo).
  - rewrite getNpmInfo_miss by assumption.
    pose proof (fetchNpmInfo_returns_normalised env name w info) as Hbuilt.
    destruct (UncachedNpmInfoClient.fetchNpmInfo env name w) as [r w1].
    simpl in *. intros Hreturned. destruct (Hbuilt Hreturned) as [raw ->].
    apply npmInfoFromJson_normalized.
Qed.

(** The document fetched for [foo] arrives with extra properties and is
    cached without them. *)
Lemma getNpmInfo_keeps_normalized_witness :
  normalizedCache (cache Demo.world)
  ∧ normalizedCache
      (cache (snd (CachedNpmInfoClient.getNpmInfo Demo.env "foo" (Some "H") Demo.world)))
  ∧ normalized Demo.fooInfo.
Proof.
  assert (Hempty : normalizedCache (cache Demo.world))
    by (intros name info; simpl; now rewrite lookup_empty).
  destruct (getNpmInfo_keeps_normalized Demo.env Demo.world "foo" (Some "H") Hempty)
    as [Hcache Hinfo].
  split; [exact Hempty|]. split; [exact Hcache|].
  apply Hinfo. reflexivity.
Defined.

(** X4. [getNpmInfo] touches no file and no log line; of the cache it can
    change the entry of the requested name only, it never removes an
    entry, and a call that fails leaves the cache as it was. *)
Theorem getNpmInfo_frame env (w : World) (name : string) (contentHash : option string) :
  let run := CachedNpmInfoClient.getNpmInfo env name contentHash w in
  files (snd run) = files w
  ∧ logged (snd run) = logged w
  ∧ (∀ other, other ≠ name -> cache (snd run) !! other = cache w !! other)
  ∧ (∀ key, is_Some (cache w !! key) -> is_Some (cache (snd run) !! key))
  ∧ (∀ e, fst run = Throw e -> cache (snd run) = cache w).
Proof.
  intros run. subst run.
  destruct (CachedNpmInfoClient.isHit (cache w !! name) contentHash) eqn:Hhit.
  - rewrite getNpmInfo_hit by assumption. simpl. repeat split; auto; discriminate.
  - rewrite getNpmInfo_miss by assumption.
    pose proof (fetchNpmInfo_frame env name w) as (Hcache & Hfiles & Hlogged & _).
    destruct (UncachedNpmInfoClient.fetchNpmInfo env name w) as [r w1].
    simpl in *.
    destruct r as [[info|]|e]; destruct contentHash as [hash|]; simpl;
      rewrite ?Hcache; repeat split; auto; try discriminate.
    + intros other Hne. now rewrite lookup_insert_ne.
    + intros key Hsome. destruct (decide (name = key)) as [<- | Hne].
      * rewrite lookup_insert_eq. eauto.
      * now rewrite lookup_insert_ne.
Qed.

Lemma getNpmInfo_returned_is_cached env w name hash info :
  fst (CachedNpmInfoClient.getNpmInfo env name (Some hash) w) = Ok (Some info) ->
  cache (snd (CachedNpmInfoClient.getNpmInfo env name (Some hash) w)) !! name = Some info.
Proof.
  destruct (CachedNpmInfoClient.isHit (cache w !! name) (Some hash)) eqn:Hhit.
  - rewrite getNpmInfo_hit by assumption. simpl. now intros [= ->].
  - rewrite getNpmInfo_miss by assumption.
    pose proof (fetchNpmInfo_frame env name w) as (Hcache & _).
    destruct (UncachedNpmInfoClient.fetchNpmInfo env name w) as [r w1].
    simpl in *. intros ->. simpl. apply lookup_insert_eq.
Qed.

(** X5. After [getNpmInfo] returned a document for a name and a hash, the
    same call again returns that document without any fetch when the
    document has a version with the hash, and fetches once more when it
    has none: a document that lacks the hash is never served from the
    cache. *)
Theorem getNpmInfo_again env (w : World) (name hash : string) (info : NpmInfo) :
  fst (CachedNpmInfoClient.getNpmInfo env name (Some hash) w) = Ok (Some info) ->
  let w1 := snd (CachedNpmInfoClient.getNpmInfo env name (Some hash) w) in
  let again := CachedNpmInfoClient.getNpmInfo env name (Some hash) w1 in
  ((∃ ver v, versions info !! ver = Some v ∧ typesPublisherContentHash v = hash) ->
     again = (Ok (Some info), w1))
  ∧ (¬ (∃ ver v, versions info !! ver = Some v ∧ typesPublisherContentHash v = hash) ->
     count isFetch (since w1 (snd again)) = 1%nat).
Proof.
  intros Hfirst w1 again. subst w1 again.
  pose proof (getNpmInfo_returned_is_cached _ _ _ _ _ Hfirst) as Hcached.
  set (w1 := snd (CachedNpmInfoClient.getNpmInfo env name (Some hash) w)) in *.
  split.
  - intros (ver & v & Hv & Hhash).
    rewrite getNpmInfo_hit; [now rewrite Hcached|].
    apply isHit_spec. exists info, ver, v. auto.
  - intros Hnone. apply getNpmInfo_miss_one_fetch. apply not_true_is_false.
    rewrite isHit_spec. intros (info' & ver & v & Hinfo' & Hv & Hhash).
    rewrite Hcached in Hinfo'. injection Hinfo' as <-. apply Hnone. eauto.
Qed.

(** [foo] fetched with hash [H], which the document has, then asked for
    again. *)
Lemma getNpmInfo_again_witness :
  fst (CachedNpmInfoClient.getNpmInfo Demo.env "foo" (Some "H") Demo.world)
  = Ok (Some Demo.fooInfo)
  ∧ CachedNpmInfoClient.getNpmInfo Demo.env "foo" (Some "H")
      (snd (CachedNpmInfoClient.getNpmInfo Demo.env "foo" (Some "H") Demo.world))
    = (Ok (Some Demo.fooInfo),
       snd (CachedNpmInfoClient.getNpmInfo Demo.env "foo" (Some "H") Demo.world)).
Proof.
  split; [reflexivity|].
  apply (proj1 (getNpmInfo_again Demo.env Demo.world "foo" "H" Demo.fooInfo eq_refl)).
  exists "1.0.0", {| typesPublisherContentHash := "H"; deprecated := None;
                     versionOther := ∅ |}.
  split; [vm_compute|]; reflexivity.
Defined.

Lemma fetchNpmInfo_after_raw env name w :
  UncachedNpmInfoClient.fetchNpmInfo env name w
  = match UncachedNpmInfoClient.fetchRawNpmInfo env name w with
    | (Ok raw, w') => (Ok (npmInfoFromJson <$> raw), emit (ESleep 10) w')
    | (Throw e, w') => (Throw e, w')
    end.
Proof.
  unfold UncachedNpmInfoClient.fetchNpmInfo, bind, sleep, ret.
  now destruct (UncachedNpmInfoClient.fetchRawNpmInfo env name w) as [[[raw|] | e] w'].
Qed.

(** X6. [fetchRawNpmInfo] makes the request and nothing else.
    [fetchNpmInfo] adds the pause and the normalisation when the raw fetch
    returns, absent included; when the raw fetch fails it fails with the
    same error in the same world, without a pause. *)
Theorem fetchNpmInfo_pauses_unless_failed env (name : string) (w : World) :
  let raw := UncachedNpmInfoClient.fetchRawNpmInfo env name w in
  let run := UncachedNpmInfoClient.fetchNpmInfo env name w in
  since w (snd raw) = [EFetchJson (infoRequest env name)]
  ∧ match fst raw with
    | Ok doc =>
        fst run = Ok (npmInfoFromJson <$> doc)
        ∧ since w (snd run) = [EFetchJson (infoRequest env name); ESleep 10]
    | Throw e => run = (Throw e, snd raw)
    end.
Proof.
  intros raw run. subst raw run. rewrite fetchNpmInfo_after_raw.
  destruct (fetchRawNpmInfo_cases env name w)
    as [(payload & error & _ & _ & _ & Hrun)
       | [(payload & error & _ & _ & _ & Hrun)
         | [(doc & _ & _ & Hrun) | (e & _ & Hrun)]]];
    cbn zeta in Hrun; rewrite Hrun; cbn [fst snd];
    (split; [now apply since_app|]); try reflexivity;
    (split; [reflexivity|]); apply since_app; cbn [trace emit]; now rewrite <- app_assoc.
Qed.

(** ** Sessions in sequence *)

Lemma with_Ok_inv {T : Type} env (cb : Async T) w res w' :
  CachedNpmInfoClient.with_ env cb w = (Ok res, w') ->
  ∃ loaded w0 w1,
    CachedNpmInfoClient.loadCache env w = (Ok loaded, w0)
    ∧ cb (setCache loaded w0) = (Ok res, w1)
    ∧ CachedNpmInfoClient.writeCache env w1 = (Ok tt, w').
Proof.
  unfold CachedNpmInfoClient.with_. unfold bind at 1.
  destruct (CachedNpmInfoClient.loadCache env w) as [[loaded | e] w0]; [|discriminate].
  unfold CachedNpmInfoClient.new at 1. unfold bind at 1 2.
  destruct (cb (setCache loaded w0)) as [[res' | e] w1] eqn:Hcb; [|discriminate].
  unfold bind at 1.
  destruct (CachedNpmInfoClient.writeCache env w1) as [[[] | e] w2] eqn:Hwrite;
    [|discriminate].
  unfold ret. intros [= <- <-]. exists loaded, w0, w1. auto.
Qed.

Lemma with_normalized {T : Type} env (cb : Async T) (w w' : World) (res : T) :
  CachedNpmInfoClient.with_ env cb w = (Ok res, w') ->
  (∀ v, normalizedCache (cache v) -> normalizedCache (cache (snd (cb v)))) ->
  normalizedCache (cache w').
Proof.
  intros Hrun Hkeeps.
  destruct (with_Ok_inv _ _ _ _ _ Hrun) as (loaded & w0 & w1 & Hload & Hcb & Hwrite).
  destruct (writeCache_effect env w1) as (w2 & Hwrite' & _ & Hcache & _).
  rewrite Hwrite in Hwrite'. injection Hwrite' as <-. rewrite Hcache.
  specialize (Hkeeps (setCache loaded w0)). rewrite Hcb in Hkeeps. apply Hkeeps.
  simpl. exact (loadCache_normalized _ _ _ _ Hload).
Qed.

(** X7. When a session returns normally and its unit of work keeps the
    cache normalised, as [getNpmInfo] does, loading the cache in the world
    the session leaves gives back exactly the cache the session ended
    with: the next session resumes where this one stopped. *)
Theorem next_session_resumes {T : Type} env (cb : Async T) (w w' : World) (res : T) :
  CachedNpmInfoClient.with_ env cb w = (Ok res, w') ->
  (∀ v, normalizedCache (cache v) -> normalizedCache (cache (snd (cb v)))) ->
  ∃ w'', CachedNpmInfoClient.loadCache env w' = (Ok (cache w'), w'')
         ∧ since w' w'' = [EPathExists (cacheFile env); EReadJson (cacheFile env)].
Proof.
  intros Hrun Hkeeps.
  pose proof (with_normalized _ _ _ _ _ Hrun Hkeeps) as Hnorm.
  destruct (with_Ok_inv _ _ _ _ _ Hrun) as (loaded & w0 & w1 & _ & _ & Hwrite).
  destruct (writeCache_effect env w1) as (w2 & Hwrite' & _ & Hcache & Hfiles & _).
  rewrite Hwrite in Hwrite'. injection Hwrite' as <-.
  rewrite loadCache_run, Hfiles, lookup_insert_eq, <- Hcache.
  rewrite (reload_cache _ Hnorm).
  eexists. split; [reflexivity|]. apply since_app. simpl. now rewrite <- app_assoc.
Qed.

Lemma okBatch_keeps_normalized v :
  normalizedCache (cache v) -> normalizedCache (cache (snd (Demo.okBatch v))).
Proof.
  intros Hnorm. unfold Demo.okBatch, bind.
  pose proof (getNpmInfo_normalized Demo.env v "foo" (Some "H") Hnorm) as Hfirst.
  destruct (CachedNpmInfoClient.getNpmInfo Demo.env "foo" (Some "H") v) as [[r | e] v1];
    [|exact Hfirst].
  now apply getNpmInfo_normalized.
Qed.

(** The session over the demo batch, then the load of the next session. *)
Lemma next_session_resumes_witness :
  fst (CachedNpmInfoClient.with_ Demo.env Demo.okBatch Demo.world) = Ok None
  ∧ fst (CachedNpmInfoClient.loadCache Demo.env
           (snd (CachedNpmInfoClient.with_ Demo.env Demo.okBatch Demo.world)))
    = Ok {[ "foo" := Demo.fooInfo ]}.
Proof.
  split; [vm_compute; reflexivity|].
  assert (Hrun : CachedNpmInfoClient.with_ Demo.env Demo.okBatch Demo.world
                 = (Ok None, snd (CachedNpmInfoClient.with_ Demo.env Demo.okBatch Demo.world)))
    by (vm_compute; reflexivity).
  destruct (next_session_resumes Demo.env Demo.okBatch Demo.world _ None Hrun
              okBatch_keeps_normalized) as (w'' & Hload & _).
  rewrite Hload. vm_compute. reflexivity.
Defined.

(** ** The publish client: the calls made *)

(** X8. A [publish] that is not dry, of a directory whose readme can be
    read, reads the readme, starts the archive and makes one call to the
    registry, with public access, the client's credentials and the
    archive of the directory. In the metadata a [readme] of the package
    manifest wins over the file's text, and every other key is the
    manifest's. The promise resolves or fails as the registry call
    settles. *)
Theorem publish_wet_call env this (dir : string) (packageJson : gmap string Json)
    (w : World) (content : FileContent) :
  files w !! joinPaths env [dir; "README.md"] = Some content ->
  let run := NpmPublishClient.publish env this dir packageJson false w in
  ∃ params,
    since w (snd run) = [EReadFile (joinPaths env [dir; "README.md"]);
                         ECreateTgz dir;
                         ERegPublish (npmRegistry env) params]
    ∧ access params = "public"
    ∧ publishAuth params = auth this
    ∧ body params = {| tgzOf := dir |}
    ∧ metadata params !! "readme"
      = Some (match packageJson !! "readme" with
              | Some own => own
              | None => JString (fileText env content)
              end)
    ∧ (∀ key, key ≠ "readme" -> metadata params !! key = packageJson !! key)
    ∧ (fst run = Ok tt <->
       publishSettles env (trace w ++ [EReadFile (joinPaths env [dir; "README.md"]);
                                       ECreateTgz dir])
         (npmRegistry env) params = None)
    ∧ (∀ err, fst run = Throw err <->
       publishSettles env (trace w ++ [EReadFile (joinPaths env [dir; "README.md"]);
                                       ECreateTgz dir])
         (npmRegistry env) params = Some err).
Proof.
  intros Hreadme run. subst run. rewrite publish_run. cbn zeta. rewrite Hreadme.
  eexists. split; [apply since_app; simpl; now rewrite <- !app_assoc|].
  cbn [access publishAuth body metadata]. repeat split.
  - rewrite lookup_union. destruct (packageJson !! "readme") as [own|]; simpl.
    + now rewrite lookup_singleton_eq.
    + now rewrite lookup_singleton_eq.
  - intros key Hne. rewrite lookup_union, lookup_singleton_ne by congruence.
    now destruct (packageJson !! key).
  - cbn [fst trace emit]. rewrite <- app_assoc. simpl app.
    destruct (publishSettles env _ _ _); [discriminate | reflexivity].
  - cbn [fst trace emit]. rewrite <- app_assoc. simpl app.
    destruct (publishSettles env _ _ _); [discriminate | reflexivity].
  - cbn [fst trace emit]. rewrite <- app_assoc. simpl app.
    destruct (publishSettles env _ _ _); [now intros [= ->] | discriminate].
  - cbn [fst trace emit]. rewrite <- app_assoc. simpl app.
    destruct (publishSettles env _ _ _); [now intros [= ->] | discriminate].
Qed.

(** The manifest's own [readme] reaches the registry, not the file's. *)
Lemma publish_wet_call_witness :
  files Demo.readmeWorld !! joinPaths Demo.env ["dir"; "README.md"] = Some (Text "# readme")
  ∧ ∃ params,
      since Demo.readmeWorld
        (snd (NpmPublishClient.publish Demo.env Demo.client "dir"
                {[ "readme" := JString "own" ]} false Demo.readmeWorld))
      = [EReadFile "dir/README.md"; ECreateTgz "dir";
         ERegPublish "https://registry.npmjs.org/" params]
      ∧ metadata params !! "readme" = Some (JString "own").
Proof.
  assert (Hreadme : files Demo.readmeWorld !! joinPaths Demo.env ["dir"; "README.md"]
                    = Some (Text "# readme")) by (vm_compute; reflexivity).
  split; [exact Hreadme|].
  destruct (publish_wet_call Demo.env Demo.client "dir" {[ "readme" := JString "own" ]}
              Demo.readmeWorld _ Hreadme)
    as (params & Hevents & _ & _ & _ & Hmeta & _).
  exists params. split; [exact Hevents | exact Hmeta].
Defined.

Lemma tag_run env this packageName version label w :
  NpmPublishClient.tag env this packageName version label w =
  let params := {| tagVersion := version; tagName := label;
                   tagAuth := auth this |} in
  (match tagCallsBack env (trace w) (packageUrl env packageName) params with
   | Some error => Throw error
   | None => Ok tt
   end,
   emit (ERegTag (packageUrl env packageName) params) w).
Proof.
  unfold NpmPublishClient.tag, promisifyVoid, regTag, bind. simpl.
  now destruct (tagCallsBack env (trace w) _ _).
Qed.

(** X9. For a name without a slash, [tag] and [deprecate] address the same
    URL, the one resolved from the name as written. *)
Theorem tag_and_deprecate_same_url_without_slash env this
    (packageName version label message : string) (w : World) :
  hasSlash packageName = false ->
  since w (snd (NpmPublishClient.tag env this packageName version label w))
  = [ERegTag (packageUrl env packageName)
       {| tagVersion := version; tagName := label; tagAuth := auth this |}]
  ∧ since w (snd (NpmPublishClient.deprecate env this packageName version message w))
    = [ERegDeprecate (packageUrl env packageName)
         {| deprecateMessage := message; deprecateVersion := version;
            deprecateAuth := auth this |}].
Proof.
  intros Hname. rewrite tag_run, deprecate_run. cbn zeta.
  rewrite String_replace_no_slash by assumption.
  split; now apply since_app.
Qed.

Lemma tag_and_deprecate_same_url_without_slash_witness :
  hasSlash "pkg" = false
  ∧ since Demo.world
      (snd (NpmPublishClient.tag Demo.env Demo.client "pkg" "1.0.0" "latest" Demo.world))
    = [ERegTag "https://registry.npmjs.org/pkg"
         {| tagVersion := "1.0.0"; tagName := "latest";
            tagAuth := {| token := "secret" |} |}].
Proof.
  split; [reflexivity|].
  exact (proj1 (tag_and_deprecate_same_url_without_slash Demo.env Demo.client "pkg"
                  "1.0.0" "latest" "msg" Demo.world eq_refl)).
Defined.

(** X10. For a name with a slash, [tag] resolves the name as written, slash
    included, while [deprecate] resolves it with the first slash encoded;
    what [deprecate] resolves still has a slash exactly when the name has
    a second one. *)
Theorem tag_keeps_slash_deprecate_encodes_first env this
    (scope rest version label message : string) (w : World) :
  hasSlash scope = false ->
  since w (snd (NpmPublishClient.tag env this (scope +:+ "/" +:+ rest) version label w))
  = [ERegTag (urlResolve env (npmRegistry env) (scope +:+ "/" +:+ rest))
       {| tagVersion := version; tagName := label; tagAuth := auth this |}]
  ∧ since w (snd (NpmPublishClient.deprecate env this (scope +:+ "/" +:+ rest) version
                    message w))
    = [ERegDeprecate (urlResolve env (npmRegistry env) (scope +:+ "%2f" +:+ rest))
         {| deprecateMessage := message; deprecateVersion := version;
            deprecateAuth := auth this |}]
  ∧ hasSlash (scope +:+ "%2f" +:+ rest) = hasSlash rest.
Proof.
  intros Hscope. rewrite tag_run, deprecate_run. cbn zeta. unfold packageUrl.
  rewrite String_replace_first_slash by assumption.
  split; [now apply since_app|]. split; [now apply since_app|].
  rewrite !hasSlash_append, Hscope. reflexivity.
Qed.

(** A name with two slashes: the second one reaches the URL. *)
Lemma tag_keeps_slash_deprecate_encodes_first_witness :
  hasSlash "a" = false
  ∧ since Demo.world
      (snd (NpmPublishClient.tag Demo.env Demo.client "a/b/c" "1.0.0" "latest" Demo.world))
    = [ERegTag "https://registry.npmjs.org/a/b/c"
         {| tagVersion := "1.0.0"; tagName := "latest";
            tagAuth := {| token := "secret" |} |}]
  ∧ since Demo.world
      (snd (NpmPublishClient.deprecate Demo.env Demo.client "a/b/c" "1.0.0" "msg"
              Demo.world))
    = [ERegDeprecate "https://registry.npmjs.org/a%2fb/c"
         {| deprecateMessage := "msg"; deprecateVersion := "1.0.0";
            deprecateAuth := {| token := "secret" |} |}].
Proof.
  split; [reflexivity|].
  destruct (tag_keeps_slash_deprecate_encodes_first Demo.env Demo.client "a" "b/c" "1.0.0"
              "latest" "msg" Demo.world eq_refl) as (Htag & Hdeprecate & _).
  split; [exact Htag | exact Hdeprecate].
Defined.

(** X11. [tag] and [deprecate] fail exactly when the registry client hands
    an error to the callback, and with that error; either way each makes
    one network call and touches no file. *)
Theorem registry_callback_decides env this (packageName version label message : string)
    (w : World) :
  let tagged := NpmPublishClient.tag env this packageName version label w in
  let deprecated := NpmPublishClient.deprecate env this packageName version message w in
  (∀ err, fst tagged = Throw err <->
          tagCallsBack env (trace w) (packageUrl env packageName)
            {| tagVersion := version; tagName := label; tagAuth := auth this |} = Some err)
  ∧ (∀ err, fst deprecated = Throw err <->
            deprecateCallsBack env (trace w)
              (packageUrl env (String_replace packageName "/" "%2f"))
              {| deprecateMessage := message; deprecateVersion := version;
                 deprecateAuth := auth this |} = Some err)
  ∧ count isNetworkCall (since w (snd tagged)) = 1%nat
  ∧ count isNetworkCall (since w (snd deprecated)) = 1%nat
  ∧ files (snd tagged) = files w ∧ files (snd deprecated) = files w.
Proof.
  intros tagged deprecated. subst tagged deprecated.
  rewrite tag_run, deprecate_run. cbn zeta. cbn [fst snd].
  repeat split; try (erewrite since_app by reflexivity; reflexivity).
  - destruct (tagCallsBack env _ _ _); [now intros [= ->] | discriminate].
  - destruct (tagCallsBack env _ _ _); [now intros [= ->] | discriminate].
  - destruct (deprecateCallsBack env _ _ _); [now intros [= ->] | discriminate].
  - destruct (deprecateCallsBack env _ _ _); [now intros [= ->] | discriminate].
Qed.

(** ** The driver: failures, dry runs, the publish call *)

Lemma main_unchanged_run env dry w :
  additions env = [] ->
  PublishRegistry.main env dry w =
  (Ok tt,
   emit (EWriteLog "publish-registry.md"
           ["=== Publishing types-registry ==="; logNothing])
     (emit EReadAdditions
        (setLogged ["=== Publishing types-registry ==="; logNothing] w))).
Proof.
  intros Hnone.
  unfold PublishRegistry.main, PublishRegistry.logger, PublishRegistry.log,
    PublishRegistry.readAdditions, PublishRegistry.logResult, PublishRegistry.writeLog,
    bind.
  rewrite Hnone. reflexivity.
Qed.

Lemma main_version_fails_run env dry w e :
  additions env ≠ [] ->
  versionInfoAnswer env (trace w ++ [EReadAdditions; EReadTypings])
    PublishRegistry.packageName false = Throw e ->
  PublishRegistry.main env dry w =
  (Throw e,
   emit (EFetchVersionInfo PublishRegistry.packageName false)
     (emit EReadTypings
        (emit EReadAdditions
           (setLogged
              ["=== Publishing types-registry ===";
               "New packages have been added: "
                 +:+ jsonStringify env (JArray (JString <$> additions env))
                 +:+ ", so publishing a new registry"] w)))).
Proof.
  intros Hadded Hanswer.
  unfold PublishRegistry.main, PublishRegistry.logger, PublishRegistry.log,
    PublishRegistry.readAdditions.
  unfold bind at 1 2 3 4.
  destruct (additions env) as [|added0 added] eqn:Hadd; [contradiction|].
  cbn [length Nat.eqb negb].
  unfold bind at 1 2.
  unfold PublishRegistry.generateAndPublishRegistry, PublishRegistry.readTypings,
    PublishRegistry.fetchLastPatchNumber, PublishRegistry.fetchVersionInfoFromNpm.
  unfold bind at 1 2 3 4. cbn [trace emit setLogged].
  rewrite <- app_assoc. simpl app. rewrite Hanswer. reflexivity.
Qed.

Lemma publish_phase_run env (packageJson : gmap string Json) dry w content :
  files w !! joinPaths env [PublishRegistry.outputPath env; "README.md"] = Some content ->
  bind (PublishRegistry.publish env packageJson dry)
    (fun _ => bind PublishRegistry.logResult
                (fun lines => PublishRegistry.writeLog "publish-registry.md" lines)) w =
  let out := PublishRegistry.outputPath env in
  match npmToken env with
  | Throw e => (Throw e, emit EGetSecret w)
  | Ok token =>
      let w2 := emit (ECreateTgz out)
                  (emit (EReadFile (joinPaths env [out; "README.md"])) (emit EGetSecret w)) in
      if dry then (Ok tt, emit (EWriteLog "publish-registry.md" (logged w)) w2)
      else
        let params := {| access := "public";
                         publishAuth := {| token := token |};
                         metadata := packageJson
                                     ∪ {[ "readme" := JString (fileText env content) ]};
                         body := {| tgzOf := out |} |} in
        match publishSettles env (trace w2) (npmRegistry env) params with
        | Some err => (Throw err, emit (ERegPublish (npmRegistry env) params) w2)
        | None => (Ok tt,
                   emit (EWriteLog "publish-registry.md" (logged w))
                     (emit (ERegPublish (npmRegistry env) params) w2))
        end
  end.
Proof.
  intros Hreadme.
  unfold PublishRegistry.publish, NpmPublishClient.create, getSecret.
  unfold bind at 1 2 3.
  destruct (npmToken env) as [token | e]; [|reflexivity].
  unfold ret at 1. rewrite publish_run. cbn zeta.
  change (files (emit EGetSecret w)) with (files w). rewrite Hreadme.
  destruct dry; [reflexivity|].
  cbn [auth]. destruct (publishSettles env _ (npmRegistry env) _); reflexivity.
Qed.

Lemma main_changed_cases env dry w info :
  additions env ≠ [] ->
  versionInfoAnswer env (trace w ++ [EReadAdditions; EReadTypings])
    PublishRegistry.packageName false = Ok info ->
  let next := PublishRegistry.generatePackageJson (patch info + 1) in
  let out := PublishRegistry.outputPath env in
  let head := [EReadAdditions; EReadTypings;
               EFetchVersionInfo PublishRegistry.packageName false]
              ++ registryFiles env next in
  let run := PublishRegistry.main env dry w in
  let lines := logged (generated env w info) in
  match npmToken env with
  | Throw e => fst run = Throw e ∧ since w (snd run) = head ++ [EGetSecret]
  | Ok token =>
      let read := [EGetSecret; EReadFile (joinPaths env [out; "README.md"]); ECreateTgz out] in
      if dry
      then fst run = Ok tt
           ∧ since w (snd run) = head ++ read ++ [EWriteLog "publish-registry.md" lines]
      else
        ∃ params,
          params = {| access := "public";
                      publishAuth := {| token := token |};
                      metadata := next ∪ {[ "readme" :=
                                    JString (fileText env
                                               (JsonFile (JString PublishRegistry.readme))) ]};
                      body := {| tgzOf := out |} |}
          ∧ ((fst run = Ok tt
              ∧ since w (snd run)
                = head ++ read ++ [ERegPublish (npmRegistry env) params;
                                   EWriteLog "publish-registry.md" lines])
             ∨ (∃ err, fst run = Throw err
                       ∧ since w (snd run)
                         = head ++ read ++ [ERegPublish (npmRegistry env) params]))
  end.
Proof.
  intros Hadded Hanswer next out head run lines. subst next out head run lines.
  rewrite (main_changed_run _ _ _ _ Hadded Hanswer).
  rewrite (publish_phase_run _ _ _ _ _ (generated_readme env w info)). cbn zeta.
  pose proof (generated_trace env w info) as Htrace.
  destruct (npmToken env) as [token | e].
  - destruct dry.
    + split; [reflexivity|]. apply since_app. cbn [snd trace emit].
      rewrite Htrace, <- !app_assoc. reflexivity.
    + eexists. split; [reflexivity|].
      destruct (publishSettles env _ (npmRegistry env) _) as [err|].
      * right. exists err. split; [reflexivity|]. apply since_app. cbn [snd trace emit].
        rewrite Htrace, <- !app_assoc. reflexivity.
      * left. split; [reflexivity|]. apply since_app. cbn [snd trace emit].
        rewrite Htrace, <- !app_assoc. reflexivity.
  - split; [reflexivity|]. apply since_app. cbn [snd trace emit].
    rewrite Htrace, <- !app_assoc. reflexivity.
Qed.

(** X12. [main] writes the log exactly when it returns normally: a run
    that fails, at the version fetch, at the token or at the publish call,
    ends without a log. *)
Theorem main_writes_log_iff_returns env (dry : bool) (w : World) :
  let run := PublishRegistry.main env dry w in
  match fst run with
  | Ok _ => count isWriteLog (since w (snd run)) = 1%nat
  | Throw _ => count isWriteLog (since w (snd run)) = 0%nat
  end.
Proof.
  intros run. subst run.
  destruct (additions env) as [|added0 added] eqn:Hadd.
  - rewrite (main_unchanged_run _ _ _ Hadd). cbn [fst snd].
    erewrite since_app by (cbn [trace emit setLogged]; rewrite <- app_assoc; reflexivity).
    reflexivity.
  - assert (Hadded : additions env ≠ []) by now rewrite Hadd.
    destruct (versionInfoAnswer env (trace w ++ [EReadAdditions; EReadTypings])
                PublishRegistry.packageName false) as [info | e] eqn:Hanswer.
    + pose proof (main_changed_cases env dry w info Hadded Hanswer) as Hcases.
      cbn zeta in Hcases. unfold registryFiles in Hcases.
      destruct (npmToken env) as [token | e].
      * destruct dry.
        -- destruct Hcases as [-> ->]. reflexivity.
        -- destruct Hcases as (params & _ & [[-> ->] | (err & -> & ->)]); reflexivity.
      * destruct Hcases as [-> ->]. reflexivity.
    + rewrite (main_version_fails_run _ _ _ _ Hadded Hanswer). cbn [fst snd].
      erewrite since_app by (cbn [trace emit setLogged]; rewrite <- !app_assoc; reflexivity).
      reflexivity.
Qed.

(** X13. A dry run of the driver makes no publish, tag or deprecate call,
    whatever the collaborators answer. When packages were added and the
    version and the token are at hand, it still reads the last version
    from the registry, its only network call, regenerates the three files
    and returns normally. *)
Theorem main_dry_run_publishes_nothing env (w : World) :
  let run := PublishRegistry.main env true w in
  count isRegistryWrite (since w (snd run)) = 0%nat
  ∧ (∀ info token,
       additions env ≠ [] ->
       versionInfoAnswer env (trace w ++ [EReadAdditions; EReadTypings])
         PublishRegistry.packageName false = Ok info ->
       npmToken env = Ok token ->
       fst run = Ok tt
       ∧ since w (snd run)
         = [EReadAdditions; EReadTypings;
            EFetchVersionInfo PublishRegistry.packageName false]
           ++ registryFiles env (PublishRegistry.generatePackageJson (patch info + 1))
           ++ [EGetSecret;
               EReadFile (joinPaths env [PublishRegistry.outputPath env; "README.md"]);
               ECreateTgz (PublishRegistry.outputPath env);
               EWriteLog "publish-registry.md" (logged (generated env w info))]
       ∧ count isNetworkCall (since w (snd run)) = 1%nat).
Proof.
  intros run. subst run. split.
  - destruct (additions env) as [|added0 added] eqn:Hadd.
    + rewrite (main_unchanged_run _ _ _ Hadd). cbn [fst snd].
      erewrite since_app by (cbn [trace emit setLogged]; rewrite <- app_assoc; reflexivity).
      reflexivity.
    + assert (Hadded : additions env ≠ []) by now rewrite Hadd.
      destruct (versionInfoAnswer env (trace w ++ [EReadAdditions; EReadTypings])
                  PublishRegistry.packageName false) as [info | e] eqn:Hanswer.
      * pose proof (main_changed_cases env true w info Hadded Hanswer) as Hcases.
        cbn zeta in Hcases. unfold registryFiles in Hcases.
        destruct (npmToken env) as [token | e]; destruct Hcases as [_ ->]; reflexivity.
      * rewrite (main_version_fails_run _ _ _ _ Hadded Hanswer). cbn [fst snd].
        erewrite since_app
          by (cbn [trace emit setLogged]; rewrite <- !app_assoc; reflexivity).
        reflexivity.
  - intros info token Hadded Hanswer Htoken.
    pose proof (main_changed_cases env true w info Hadded Hanswer) as Hcases.
    cbn zeta in Hcases. rewrite Htoken in Hcases. destruct Hcases as [Hfst Hsince].
    split; [exact Hfst|]. split; [exact Hsince|].
    rewrite Hsince. unfold registryFiles. reflexivity.
Qed.

(** X14. When the last version cannot be fetched, [main] fails with that
    error before it clears or writes anything: the files are untouched. *)
Theorem main_stops_when_version_fetch_fails env (dry : bool) (w : World) (e : Error) :
  additions env ≠ [] ->
  versionInfoAnswer env (trace w ++ [EReadAdditions; EReadTypings])
    PublishRegistry.packageName false = Throw e ->
  let run := PublishRegistry.main env dry w in
  fst run = Throw e
  ∧ files (snd run) = files w
  ∧ since w (snd run)
    = [EReadAdditions; EReadTypings; EFetchVersionInfo PublishRegistry.packageName false].
Proof.
  intros Hadded Hanswer run. subst run.
  rewrite (main_version_fails_run _ _ _ _ Hadded Hanswer). cbn [fst snd].
  split; [reflexivity|]. split; [reflexivity|].
  apply since_app. cbn [trace emit setLogged]. now rewrite <- !app_assoc.
Qed.

Lemma main_stops_when_version_fetch_fails_witness :
  additions Faults.offlineEnv ≠ []
  ∧ PublishRegistry.main Faults.offlineEnv false Demo.readmeWorld
    = (Throw {| message := "ETIMEDOUT" |},
       snd (PublishRegistry.main Faults.offlineEnv false Demo.readmeWorld))
  ∧ files (snd (PublishRegistry.main Faults.offlineEnv false Demo.readmeWorld))
    = files Demo.readmeWorld.
Proof.
  assert (Hadded : additions Faults.offlineEnv ≠ []) by discriminate.
  destruct (main_stops_when_version_fetch_fails Faults.offlineEnv false Demo.readmeWorld
              {| message := "ETIMEDOUT" |} Hadded eq_refl) as (Hfst & Hfiles & _).
  split; [exact Hadded|]. split; [|exact Hfiles].
  rewrite <- Hfst. now destruct (PublishRegistry.main _ _ _).
Defined.

(** X15. When the token is missing, [main] fails with the secret store's
    error after the registry package was generated: the files are
    written, the readme among them, and nothing is published. *)
Theorem main_without_token_generates_only env (dry : bool) (w : World) (info : Semver)
    (e : Error) :
  additions env ≠ [] ->
  versionInfoAnswer env (trace w ++ [EReadAdditions; EReadTypings])
    PublishRegistry.packageName false = Ok info ->
  npmToken env = Throw e ->
  let run := PublishRegistry.main env dry w in
  fst run = Throw e
  ∧ since w (snd run)
    = [EReadAdditions; EReadTypings; EFetchVersionInfo PublishRegistry.packageName false]
      ++ registryFiles env (PublishRegistry.generatePackageJson (patch info + 1))
      ++ [EGetSecret]
  ∧ count isRegistryWrite (since w (snd run)) = 0%nat
  ∧ files (snd run) !! pathJoin env [PublishRegistry.outputPath env; "README.md"]
    = Some (JsonFile (JString PublishRegistry.readme)).
Proof.
  intros Hadded Hanswer Htoken run. subst run.
  pose proof (main_changed_cases env dry w info Hadded Hanswer) as Hcases.
  cbn zeta in Hcases. rewrite Htoken in Hcases. destruct Hcases as [Hfst Hsince].
  split; [exact Hfst|]. split; [rewrite Hsince; now rewrite <- app_assoc|].
  split; [rewrite Hsince; unfold registryFiles; reflexivity|].
  rewrite (main_changed_run _ _ _ _ Hadded Hanswer).
  rewrite (publish_phase_run _ _ _ _ _ (generated_readme env w info)). cbn zeta.
  rewrite Htoken. cbn [snd]. exact (generated_readme env w info).
Qed.

Lemma main_without_token_generates_only_witness :
  additions Faults.tokenlessEnv ≠ []
  ∧ fst (PublishRegistry.main Faults.tokenlessEnv false Demo.world)
    = Throw {| message := "Missing secret" |}
  ∧ count isRegistryWrite
      (since Demo.world (snd (PublishRegistry.main Faults.tokenlessEnv false Demo.world)))
    = 0%nat.
Proof.
  assert (Hadded : additions Faults.tokenlessEnv ≠ []) by discriminate.
  destruct (main_without_token_generates_only Faults.tokenlessEnv false Demo.world
              {| major := 0; minor := 1; patch := 41 |} {| message := "Missing secret" |}
              Hadded eq_refl eq_refl) as (Hfst & _ & Hnone & _).
  split; [exact Hadded|]. split; [exact Hfst | exact Hnone].
Defined.

(** X16. A run that is not dry, with packages added, the last version and
    the token at hand, makes exactly one publish call: public access, the
    token of the secret store, the archive of the output directory, and as
    readme the text of the [README.md] it has just written with
    [writeJson]. *)
Theorem main_wet_publish_call env (w : World) (info : Semver) (token : string) :
  additions env ≠ [] ->
  versionInfoAnswer env (trace w ++ [EReadAdditions; EReadTypings])
    PublishRegistry.packageName false = Ok info ->
  npmToken env = Ok token ->
  let run := PublishRegistry.main env false w in
  ∃ params,
    In (ERegPublish (npmRegistry env) params) (since w (snd run))
    ∧ count isRegistryWrite (since w (snd run)) = 1%nat
    ∧ access params = "public"
    ∧ publishAuth params = {| token := token |}
    ∧ body params = {| tgzOf := PublishRegistry.outputPath env |}
    ∧ metadata params !! "readme"
      = Some (JString (fileText env (JsonFile (JString PublishRegistry.readme)))).
Proof.
  intros Hadded Hanswer Htoken run. subst run.
  pose proof (main_changed_cases env false w info Hadded Hanswer) as Hcases.
  cbn zeta in Hcases. rewrite Htoken in Hcases.
  destruct Hcases as (params & Hparams & Hcases). exists params.
  split; [|split; [|subst params;
                    split; [reflexivity|split; [reflexivity|split; [reflexivity|]]]]].
  - destruct Hcases as [[_ ->] | (err & _ & ->)];
      rewrite !in_app_iff; right; right; simpl; auto.
  - destruct Hcases as [[_ ->] | (err & _ & ->)]; unfold registryFiles; reflexivity.
  - cbn [metadata]. rewrite lookup_union_r by reflexivity. apply lookup_singleton_eq.
Qed.

Lemma main_wet_publish_call_witness :
  additions Demo.env ≠ []
  ∧ ∃ params,
      In (ERegPublish "https://registry.npmjs.org/" params)
         (since Demo.world (snd (PublishRegistry.main Demo.env false Demo.world)))
      ∧ publishAuth params = {| token := "secret" |}
      ∧ body params = {| tgzOf := "output/types-registry" |}.
Proof.
  assert (Hadded : additions Demo.env ≠ []) by discriminate.
  split; [exact Hadded|].
  destruct (main_wet_publish_call Demo.env Demo.world
              {| major := 0; minor := 1; patch := 41 |} "secret" Hadded eq_refl eq_refl)
    as (params & Hin & _ & _ & Hauth & Hbody & _).
  exists params. split; [exact Hin|]. split; [exact Hauth | exact Hbody].
Defined.

(** ** The generated files *)

Lemma registryEntries_lookup typings name :
  PublishRegistry.registryEntries typings !! name
  = if bool_decide (name ∈ typingsPackageName <$> typings) then Some (JNumber 1) else None.
Proof.
  unfold PublishRegistry.registryEntries. rewrite foldl_entries.
  now rewrite lookup_empty.
Qed.

(** X17. The index depends on the set of package names only: the order of
    the packages and a name that occurs twice make no difference. *)
Theorem generateRegistry_depends_on_names (typings1 typings2 : list TypingsData) :
  (∀ name, name ∈ typingsPackageName <$> typings1
           <-> name ∈ typingsPackageName <$> typings2) ->
  PublishRegistry.generateRegistry typings1 = PublishRegistry.generateRegistry typings2.
Proof.
  intros Hsame. unfold PublishRegistry.generateRegistry. do 3 f_equal.
  apply map_eq. intros name. rewrite !registryEntries_lookup.
  destruct (bool_decide_reflect (name ∈ typingsPackageName <$> typings1)) as [Hin | Hout].
  - rewrite bool_decide_eq_true_2 by now apply Hsame. reflexivity.
  - rewrite bool_decide_eq_false_2; [reflexivity|]. intros Hin. now apply Hout, Hsame.
Qed.

Lemma generateRegistry_depends_on_names_witness :
  PublishRegistry.generateRegistry
    [ {| typingsPackageName := "foo" |}; {| typingsPackageName := "bar" |};
      {| typingsPackageName := "foo" |} ]
  = PublishRegistry.generateRegistry
      [ {| typingsPackageName := "bar" |}; {| typingsPackageName := "foo" |} ].
Proof.
  apply generateRegistry_depends_on_names.
  intros name. simpl. rewrite !elem_of_cons, !elem_of_nil. tauto.
Defined.

Lemma append_inj_r (prefix a b : string) : prefix +:+ a = prefix +:+ b -> a = b.
Proof.
  induction prefix as [|ch prefix IH]; [trivial|].
  rewrite !append_cons. intros [= H]. now apply IH.
Qed.

(** X18. Two manifests have the same version only for the same patch
    number, and they agree on every other key. *)
Theorem generatePackageJson_differs_by_version_only (patch1 patch2 : Z) :
  (PublishRegistry.generatePackageJson patch1 !! "version"
   = PublishRegistry.generatePackageJson patch2 !! "version" -> patch1 = patch2)
  ∧ (∀ key, key ≠ "version" ->
       PublishRegistry.generatePackageJson patch1 !! key
       = PublishRegistry.generatePackageJson patch2 !! key).
Proof.
  split.
  - rewrite !generatePackageJson_version. intros [= H].
    apply append_inj_r in H. now apply (inj pretty).
  - intros key Hkey. unfold PublishRegistry.generatePackageJson.
    rewrite !lookup_insert.
    repeat (case_decide; [reflexivity || congruence|]).
    reflexivity.
Qed.
